(** * Duplicate detection and coverage validation: a shallow embedding

    Embedding of the duplicate-detection and validation core of the
    framework:

    - [src/validation/validation_engine.py]  (class [ValidationEngine])
    - [src/research/api_capability_mapper.py] (class [CapabilityMapper])

    Modelling conventions.

    - Python [str] values are [string]s of ASCII characters; [str.lower],
      [str.split], [str.replace] and the [in] operator are written out
      below on that alphabet.
    - Python [float] scores are exact rationals ([Q]), compared with [==].
      Every score of the claims is a ratio of small cardinalities and
      their averages, where the two agree.
    - Python [set]s of words are [gset string]; a [dict] whose iteration
      order is observable (the lookup table of the mapper, the coverage
      tracker) is an association list in insertion order.
    - A method that may raise returns [exn + A]; methods of the engine
      thread the engine state explicitly.
    - [ValidationResult.validation_timestamp] (wall-clock time) and the
      logger are not modelled; f-string texts that only render numbers
      are kept as the structured values they render. *)

From Stdlib Require Import QArith Qminmax Ascii String Lqa.
From stdpp Require Import gmap sets list strings pretty.

Local Open Scope string_scope.

#[local] Set Warnings "-clear-no-such-hyp".

(** ** Python string primitives *)

Module PyStr.

(** [str.lower] on one ASCII character. *)
Definition lower_ascii (c : ascii) : ascii :=
  let n := N_of_ascii c in
  if ((65 <=? n) && (n <=? 90))%N then ascii_of_N (n + 32) else c.

Fixpoint lower (s : string) : string :=
  match s with
  | EmptyString => EmptyString
  | String c s' => String (lower_ascii c) (lower s')
  end.

(** Characters on which [str.split()] separates. *)
Definition is_space (c : ascii) : bool :=
  let n := N_of_ascii c in
  (((9 <=? n) && (n <=? 13)) || ((28 <=? n) && (n <=? 32)))%N.

(** [split_go cur s]: [cur] is the word being read, reversed. *)
Fixpoint split_go (cur : list ascii) (s : string) : list string :=
  let flush := match cur with
               | [] => []
               | _ => [string_of_list_ascii (rev cur)]
               end in
  match s with
  | EmptyString => flush
  | String c s' =>
      if is_space c then flush ++ split_go [] s'
      else split_go (c :: cur) s'
  end.

(** [s.split()] *)
Definition split (s : string) : list string := split_go [] s.

(** [s.replace(c, d)] for single characters. *)
Fixpoint replace_char (c d : ascii) (s : string) : string :=
  match s with
  | EmptyString => EmptyString
  | String x s' =>
      String (if Ascii.eqb x c then d else x) (replace_char c d s')
  end.

(** [s.replace(c, '')] *)
Fixpoint remove_char (c : ascii) (s : string) : string :=
  match s with
  | EmptyString => EmptyString
  | String x s' =>
      if Ascii.eqb x c then remove_char c s'
      else String x (remove_char c s')
  end.

(** [sub in s] *)
Fixpoint contains (sub s : string) : bool :=
  String.prefix sub s ||
  match s with
  | EmptyString => false
  | String _ s' => contains sub s'
  end.

(** Truthiness of a string: [if key]. *)
Definition truthy (s : string) : bool :=
  match s with EmptyString => false | _ => true end.

End PyStr.

(** ** Numbers

    Python [float]s as rationals; the comparisons the code uses. *)

Definition ratio (a b : nat) : Q :=
  (inject_Z (Z.of_nat a) / inject_Z (Z.of_nat b))%Q.

(** [a < b] *)
Definition Qlt_bool (a b : Q) : bool := negb (Qle_bool b a).

(** [sum(xs)] *)
Definition Qsum (xs : list Q) : Q := foldl Qplus 0%Q xs.

(** [max(xs)] on a non-empty list; the caller guards emptiness. *)
Definition Qmax_list (xs : list Q) : Q :=
  match xs with
  | [] => 0%Q
  | x :: rest => foldl Qmax x rest
  end.

(** ** Word sets *)

(** [set(text.lower().split())] *)
Definition words (text : string) : gset string :=
  list_to_set (PyStr.split (PyStr.lower text)).

(** Truthiness of a set: [if s]. *)
Definition set_truthy (s : gset string) : bool :=
  negb (bool_decide (s = ∅)).

(** ** [api_capability_mapper.py] *)

Module CapabilityMapper.

Record ExistingFunction := {
  name : string;
  module_path : string;
  function_signature : string;
  description : string;
  parameters : list string;
  return_type : option string;
  examples : list string;
  related_functions : list string;
  categories : list string;
  source_location : string;
  documentation_url : option string
}.

(** [Dict[str, ExistingFunction]], in insertion order. *)
Abbreviation LookupTable := (list (string * ExistingFunction)).

Record Mapper := {
  existing_functions : list ExistingFunction;
  duplicate_detection_db : LookupTable
}.

(** [db.get(key)] *)
Fixpoint db_get (db : LookupTable) (key : string) : option ExistingFunction :=
  match db with
  | [] => None
  | (k, f) :: rest => if String.eqb k key then Some f else db_get rest key
  end.

(** [key in db] *)
Definition db_mem (db : LookupTable) (key : string) : bool :=
  match db_get db key with Some _ => true | None => false end.

(** The four lookup keys built for one function, in source order. *)
Definition lookup_keys (function : ExistingFunction) : list string :=
  [ PyStr.lower (name function);
    PyStr.lower (module_path function);
    PyStr.lower (PyStr.remove_char "_" (name function));
    PyStr.lower (PyStr.replace_char "_" " " (name function)) ].

(** Body of [for key in keys]: insert when truthy and absent. *)
Definition add_key (function : ExistingFunction) (duplicate_db : LookupTable)
    (key : string) : LookupTable :=
  if PyStr.truthy key && negb (db_mem duplicate_db key)
  then duplicate_db ++ [(key, function)]
  else duplicate_db.

Definition add_function (duplicate_db : LookupTable) (function : ExistingFunction)
    : LookupTable :=
  foldl (add_key function) duplicate_db (lookup_keys function).

(** Returns the updated mapper and the table. *)
Definition _build_duplicate_detection_database (self : Mapper)
    : Mapper * LookupTable :=
  let duplicate_db := foldl add_function [] (existing_functions self) in
  ({| existing_functions := existing_functions self;
      duplicate_detection_db := duplicate_db |}, duplicate_db).

Definition _calculate_text_similarity (text1 text2 : string) : Q :=
  let words1 := words text1 in
  let words2 := words text2 in
  if negb (set_truthy words1) || negb (set_truthy words2) then 0%Q
  else
    let intersection := words1 ∩ words2 in
    let union := words1 ∪ words2 in
    if set_truthy union then ratio (size intersection) (size union) else 0%Q.

(** Does the loop body of [check_for_duplicates] append this entry? *)
Definition entry_matches (name_normalized desc_normalized : string)
    (key : string) (existing_func : ExistingFunction) : bool :=
  if PyStr.contains key name_normalized || PyStr.contains name_normalized key
  then true
  else
    let existing_desc := PyStr.lower (description existing_func) in
    Qlt_bool (7 # 10)%Q (_calculate_text_similarity desc_normalized existing_desc).

(** [for key, existing_func in self.duplicate_detection_db.items()] *)
Fixpoint scan_database (name_normalized desc_normalized : string)
    (items : LookupTable) : list ExistingFunction :=
  match items with
  | [] => []
  | (key, existing_func) :: rest =>
      if entry_matches name_normalized desc_normalized key existing_func
      then existing_func :: scan_database name_normalized desc_normalized rest
      else scan_database name_normalized desc_normalized rest
  end.

(** The [seen]/[unique_duplicates] loop. *)
Fixpoint unique_by_name (seen : gset string) (funcs : list ExistingFunction)
    : list ExistingFunction :=
  match funcs with
  | [] => []
  | func :: rest =>
      if bool_decide (name func ∈ seen)
      then unique_by_name seen rest
      else func :: unique_by_name ({[ name func ]} ∪ seen) rest
  end.

Definition check_for_duplicates (self : Mapper)
    (suggestion_name suggestion_description : string) : list ExistingFunction :=
  let name_normalized := PyStr.replace_char "_" " " (PyStr.lower suggestion_name) in
  let desc_normalized := PyStr.lower suggestion_description in
  let potential_duplicates :=
    scan_database name_normalized desc_normalized (duplicate_detection_db self) in
  unique_by_name ∅ potential_duplicates.

End CapabilityMapper.

(** ** [validation_engine.py] *)

Module ValidationEngine.

Inductive ValidationStatus := PENDING | PASSED | FAILED | REQUIRES_REVIEW.

(** Members in definition order, which is the iteration order of the
    [Enum]. *)
Inductive ValidationCriteria :=
| TECHNICAL_FEASIBILITY
| DUPLICATE_CHECK
| AEC_VALUE
| IMPLEMENTATION_COMPLEXITY
| API_COMPATIBILITY
| INNOVATION_SCORE
| RESOURCE_REQUIREMENTS.

#[global] Instance ValidationStatus_eq_dec : EqDecision ValidationStatus.
Proof. solve_decision. Defined.

#[global] Instance ValidationCriteria_eq_dec : EqDecision ValidationCriteria.
Proof. solve_decision. Defined.

Definition criteria_index (c : ValidationCriteria) : nat :=
  match c with
  | TECHNICAL_FEASIBILITY => 0
  | DUPLICATE_CHECK => 1
  | AEC_VALUE => 2
  | IMPLEMENTATION_COMPLEXITY => 3
  | API_COMPATIBILITY => 4
  | INNOVATION_SCORE => 5
  | RESOURCE_REQUIREMENTS => 6
  end.

Definition criteria_of_index (n : nat) : ValidationCriteria :=
  match n with
  | 0 => TECHNICAL_FEASIBILITY
  | 1 => DUPLICATE_CHECK
  | 2 => AEC_VALUE
  | 3 => IMPLEMENTATION_COMPLEXITY
  | 4 => API_COMPATIBILITY
  | 5 => INNOVATION_SCORE
  | _ => RESOURCE_REQUIREMENTS
  end.

#[global] Instance ValidationCriteria_countable : Countable ValidationCriteria.
Proof.
  refine (inj_countable' criteria_index criteria_of_index _).
  intros c; destruct c; reflexivity.
Defined.

(** [for criteria in ValidationCriteria] *)
Definition all_criteria : list ValidationCriteria :=
  [ TECHNICAL_FEASIBILITY; DUPLICATE_CHECK; AEC_VALUE;
    IMPLEMENTATION_COMPLEXITY; API_COMPATIBILITY; INNOVATION_SCORE;
    RESOURCE_REQUIREMENTS ].

(** [criteria.value] *)
Definition criteria_value (c : ValidationCriteria) : string :=
  match c with
  | TECHNICAL_FEASIBILITY => "technical_feasibility"
  | DUPLICATE_CHECK => "duplicate_check"
  | AEC_VALUE => "aec_value"
  | IMPLEMENTATION_COMPLEXITY => "implementation_complexity"
  | API_COMPATIBILITY => "api_compatibility"
  | INNOVATION_SCORE => "innovation_score"
  | RESOURCE_REQUIREMENTS => "resource_requirements"
  end.

(** The [details] text of a result, as the values its f-string renders. *)
Inductive Details :=
| TechnicalFeasibilityAnalysis (api_deps external_deps : nat) (effort : Q)
| DuplicateAnalysis (max_similarity : Q) (duplicates_found : nat)
| AecValueAnalysis (workflow_relevance keyword_relevance problem_solving : Q)
| DetailsText (text : string).

Record ValidationResult := {
  suggestion_id : string;
  criteria : ValidationCriteria;
  status : ValidationStatus;
  score : Q;
  details : Details;
  recommendations : list string;
  blocking_issues : list string
}.

(** The three generated recommendation lines, as the values they render. *)
Inductive ReportLine :=
| CoverageAchieved (validation_coverage : Q)
| OverallQualityScore (overall_quality_score : Q)
| RequiringAttention (count : nat).

Record ComprehensiveValidationReport := {
  total_suggestions : nat;
  validation_coverage : Q;
  overall_quality_score : Q;
  passed_suggestions : nat;
  failed_suggestions : nat;
  requires_review : nat;
  validation_results : list ValidationResult;
  summary_metrics : list (string * Q);
  report_recommendations : list ReportLine;
  critical_issues : gset string
}.

(** A suggestion dict: the keys the engine reads, [None] when absent. *)
Record Suggestion := {
  sg_id : option string;
  sg_name : option string;
  sg_description : option string;
  sg_category : option string
}.

(** An implementation-spec dict: the keys the engine reads. *)
Record ImplementationSpec := {
  api_requirements : option (list string);
  external_dependencies : option (list string);
  revit_compatibility_score : option Q;
  effort_estimate : option Q
}.

(** An entry of [existing_functions_db]: the keys the engine reads. *)
Record ExistingFunc := {
  ef_name : option string;
  ef_description : option string
}.

(** Exceptions.  The three [ValidationError]s carry what their message
    renders; [ValidationError_failed] is the re-raise of the handler at
    the end of [validate_comprehensive_coverage], whose message embeds
    [str(e)]. *)
Inductive exn :=
| AttributeError (attribute : string)
| IndexError
| RuntimeError (message : string)
| ValidationError_mismatch
| ValidationError_coverage (coverage : Q)
| ValidationError_failed (cause : exn).

Definition is_ValidationError (e : exn) : bool :=
  match e with
  | ValidationError_mismatch
  | ValidationError_coverage _ | ValidationError_failed _ => true
  | _ => false
  end.

(** Instance attributes.  [existing_functions_db] is read with
    [getattr(self, 'existing_functions_db', [])]: [None] is the attribute
    being absent. *)
Record Engine := {
  engine_results : list ValidationResult;
  coverage_tracker : list (string * gset ValidationCriteria);
  existing_functions_db : option (list ExistingFunc)
}.

(** [self.minimum_thresholds], assigned once in [__init__]. *)
Definition minimum_thresholds (c : ValidationCriteria) : Q :=
  match c with
  | TECHNICAL_FEASIBILITY => 8 # 10
  | DUPLICATE_CHECK => 1
  | AEC_VALUE => 7 # 10
  | IMPLEMENTATION_COMPLEXITY => 6 # 10
  | API_COMPATIBILITY => 9 # 10
  | INNOVATION_SCORE => 5 # 10
  | RESOURCE_REQUIREMENTS => 7 # 10
  end%Q.

Definition __init__ : Engine :=
  {| engine_results := [];
     coverage_tracker := [];
     existing_functions_db := None |}.

(** [d[k] = v] on an insertion-ordered dict. *)
Fixpoint dict_set {V} (d : list (string * V)) (k : string) (v : V)
    : list (string * V) :=
  match d with
  | [] => [(k, v)]
  | (k', v') :: rest =>
      if String.eqb k' k then (k', v) :: rest
      else (k', v') :: dict_set rest k v
  end.

(** [d[k].add(c)]; the key is present where the engine does this. *)
Fixpoint dict_add {V} `{Countable V} (d : list (string * gset V)) (k : string)
    (c : V) : list (string * gset V) :=
  match d with
  | [] => []
  | (k', s) :: rest =>
      if String.eqb k' k then (k', {[ c ]} ∪ s) :: rest
      else (k', s) :: dict_add rest k c
  end.

Definition _calculate_text_similarity (text1 text2 : string) : Q :=
  let words1 := words text1 in
  let words2 := words text2 in
  if negb (set_truthy words1) || negb (set_truthy words2) then 0%Q
  else
    let intersection := words1 ∩ words2 in
    let union := words1 ∪ words2 in
    if set_truthy union then ratio (size intersection) (size union) else 0%Q.

Definition _validate_technical_feasibility (self : Engine)
    (suggestion : Suggestion) (implementation_spec : ImplementationSpec)
    (suggestion_id : string) : ValidationResult :=
  let api_dependencies := length (default [] (api_requirements implementation_spec)) in
  let external_deps := length (default [] (external_dependencies implementation_spec)) in
  let revit_version_compatibility :=
    default 0%Q (revit_compatibility_score implementation_spec) in
  let implementation_effort := default 0%Q (effort_estimate implementation_spec) in
  let api_score :=
    Qmin 1 ((10 - inject_Z (Z.of_nat api_dependencies)) / 10)%Q in
  let dependency_score :=
    Qmin 1 ((5 - inject_Z (Z.of_nat external_deps)) / 5)%Q in
  let compatibility_score := revit_version_compatibility in
  let effort_score := Qmin 1 ((100 - implementation_effort) / 100)%Q in
  let overall_score :=
    ((api_score + dependency_score + compatibility_score + effort_score) / 4)%Q in
  let threshold := minimum_thresholds TECHNICAL_FEASIBILITY in
  let status := if Qle_bool threshold overall_score then PASSED else FAILED in
  let recommendations :=
    ((if Qlt_bool api_score (7 # 10)
      then ["Consider reducing API dependencies for better feasibility"] else [])
     ++ (if Qlt_bool dependency_score (7 # 10)
         then ["Minimize external dependencies for simpler implementation"] else [])
     ++ (if Qlt_bool effort_score (6 # 10)
         then ["Break down into smaller, more manageable components"] else []))%list in
  {| suggestion_id := suggestion_id;
     criteria := TECHNICAL_FEASIBILITY;
     status := status;
     score := overall_score;
     details := TechnicalFeasibilityAnalysis api_dependencies external_deps
                  implementation_effort;
     recommendations := recommendations;
     blocking_issues := [] |}.

(** [overall_similarity] of one database entry. *)
Definition overall_similarity (suggestion_name suggestion_description : string)
    (existing_func : ExistingFunc) : Q :=
  let name_similarity :=
    _calculate_text_similarity suggestion_name
      (PyStr.lower (default "" (ef_name existing_func))) in
  let desc_similarity :=
    _calculate_text_similarity suggestion_description
      (PyStr.lower (default "" (ef_description existing_func))) in
  ((name_similarity + desc_similarity) / 2)%Q.

(** The loop over [existing_functions]: the two lists it fills. *)
Fixpoint duplicate_scan (suggestion_name suggestion_description : string)
    (existing_functions : list ExistingFunc) : list string * list Q :=
  match existing_functions with
  | [] => ([], [])
  | existing_func :: rest =>
      let s := overall_similarity suggestion_name suggestion_description
                 existing_func in
      let '(duplicates_found, similarity_scores) :=
        duplicate_scan suggestion_name suggestion_description rest in
      (((if Qlt_bool (8 # 10) s
         then [default "Unknown" (ef_name existing_func)] else [])
          ++ duplicates_found)%list,
       s :: similarity_scores)
  end.

Definition _validate_duplicate_check (self : Engine) (suggestion : Suggestion)
    (suggestion_id : string) : ValidationResult :=
  let existing_functions := default [] (existing_functions_db self) in
  let suggestion_name := PyStr.lower (default "" (sg_name suggestion)) in
  let suggestion_description :=
    PyStr.lower (default "" (sg_description suggestion)) in
  let '(duplicates_found, similarity_scores) :=
    duplicate_scan suggestion_name suggestion_description existing_functions in
  let max_similarity :=
    match similarity_scores with
    | [] => 0%Q
    | _ => Qmax_list similarity_scores
    end in
  let score := Qmax 0 (1 - max_similarity) in
  let status := if Qle_bool 1 score then PASSED else FAILED in
  {| suggestion_id := suggestion_id;
     criteria := DUPLICATE_CHECK;
     status := status;
     score := score;
     details := DuplicateAnalysis max_similarity (length duplicates_found);
     recommendations := [];
     blocking_issues := map (fun dup => "Duplicate of: " ++ dup) duplicates_found |}.

Definition workflow_categories : list string :=
  [ "design_optimization"; "documentation_automation"; "quality_control";
    "coordination"; "analysis"; "compliance"; "productivity" ].

Definition industry_keywords : list string :=
  [ "bim"; "revit"; "architectural"; "engineering"; "construction"; "aec" ].

Definition problem_indicators : list string :=
  [ "optimize"; "automate"; "improve"; "enhance"; "streamline"; "coordinate" ].

(** [sum(1 for w in ws if w in text)] *)
Definition count_present (ws : list string) (text : string) : nat :=
  length (filter (fun w => Is_true (PyStr.contains w text)) ws).

Definition _validate_aec_value (self : Engine) (suggestion : Suggestion)
    (suggestion_id : string) : ValidationResult :=
  let category := PyStr.lower (default "" (sg_category suggestion)) in
  let description := PyStr.lower (default "" (sg_description suggestion)) in
  let workflow_relevance :=
    foldl (fun acc workflow =>
             let w := PyStr.replace_char "_" " " workflow in
             if PyStr.contains w description || PyStr.contains w category
             then (acc + (2 # 10))%Q else acc)
          0%Q workflow_categories in
  let keyword_relevance :=
    ratio (count_present industry_keywords (PyStr.lower description))
          (length industry_keywords) in
  let problem_solving_score :=
    ratio (count_present problem_indicators (PyStr.lower description))
          (length problem_indicators) in
  let overall_score :=
    Qmin 1 ((workflow_relevance + keyword_relevance + problem_solving_score) / 3)%Q in
  let threshold := minimum_thresholds AEC_VALUE in
  let status := if Qle_bool threshold overall_score then PASSED else FAILED in
  let recommendations :=
    ((if Qlt_bool workflow_relevance (4 # 10)
      then ["Clarify relevance to specific AEC workflows"] else [])
     ++ (if Qlt_bool problem_solving_score (3 # 10)
         then ["Better articulate the problem this solves"] else []))%list in
  {| suggestion_id := suggestion_id;
     criteria := AEC_VALUE;
     status := status;
     score := overall_score;
     details := AecValueAnalysis workflow_relevance keyword_relevance
                  problem_solving_score;
     recommendations := recommendations;
     blocking_issues := [] |}.

(** What [self._validate_single_criterion] is bound to: the method below,
    or whatever a caller patches in its place (as the test suite does). *)
Definition Evaluator : Type :=
  Engine -> Suggestion -> ImplementationSpec -> ValidationCriteria -> string ->
  exn + ValidationResult.

(** The class defines the first three [_validate_*] methods only; looking
    up any of the other four on [self] raises [AttributeError].  The
    final [else] of the source is unreachable on the closed enum. *)
Definition _validate_single_criterion : Evaluator :=
  fun self suggestion implementation_spec criteria suggestion_id =>
    match criteria with
    | TECHNICAL_FEASIBILITY =>
        inr (_validate_technical_feasibility self suggestion implementation_spec
               suggestion_id)
    | DUPLICATE_CHECK =>
        inr (_validate_duplicate_check self suggestion suggestion_id)
    | AEC_VALUE =>
        inr (_validate_aec_value self suggestion suggestion_id)
    | IMPLEMENTATION_COMPLEXITY =>
        inl (AttributeError "_validate_implementation_complexity")
    | API_COMPATIBILITY =>
        inl (AttributeError "_validate_api_compatibility")
    | INNOVATION_SCORE =>
        inl (AttributeError "_validate_innovation_score")
    | RESOURCE_REQUIREMENTS =>
        inl (AttributeError "_validate_resource_requirements")
    end.

Record CoverageSummary := {
  cs_total_suggestions : nat;
  complete_coverage_count : nat;
  incomplete_suggestions : list string;
  missing_criteria : list (string * gset ValidationCriteria)
}.

Definition _verify_coverage_completeness (self : Engine) : CoverageSummary :=
  let required_criteria : gset ValidationCriteria := list_to_set all_criteria in
  let incomplete :=
    filter (fun kv => kv.2 ≠ required_criteria) (coverage_tracker self) in
  {| cs_total_suggestions := length (coverage_tracker self);
     complete_coverage_count :=
       length (filter (fun kv => kv.2 = required_criteria) (coverage_tracker self));
     incomplete_suggestions := map fst incomplete;
     missing_criteria :=
       map (fun kv => (kv.1, required_criteria ∖ kv.2)) incomplete |}.

(** [len([r for r in results if r.status == s])] *)
Definition count_status (s : ValidationStatus) (results : list ValidationResult)
    : nat :=
  length (filter (fun r => status r = s) results).

(** Average score, [0.0] on the empty list. *)
Definition mean_score (results : list ValidationResult) : Q :=
  match results with
  | [] => 0%Q
  | _ => (Qsum (map score results) / inject_Z (Z.of_nat (length results)))%Q
  end.

Definition _generate_comprehensive_report (self : Engine)
    (suggestions : list Suggestion) (completed required : nat)
    : ComprehensiveValidationReport :=
  let validation_coverage :=
    if (0 <? required)%nat then ratio completed required else 0%Q in
  let passed_count := count_status PASSED (engine_results self) in
  let failed_count := count_status FAILED (engine_results self) in
  let review_count := count_status REQUIRES_REVIEW (engine_results self) in
  let overall_quality_score := mean_score (engine_results self) in
  let summary_metrics :=
    flat_map (fun c =>
                let criteria_results :=
                  filter (fun r => criteria r = c) (engine_results self) in
                match criteria_results with
                | [] => []
                | _ => [(criteria_value c, mean_score criteria_results)]
                end)
             all_criteria in
  let critical_issues :=
    flat_map (fun result =>
                if bool_decide (status result = FAILED)
                   && negb (bool_decide (blocking_issues result = []))
                then blocking_issues result else [])
             (engine_results self) in
  {| total_suggestions := length suggestions;
     validation_coverage := validation_coverage;
     overall_quality_score := overall_quality_score;
     passed_suggestions := passed_count;
     failed_suggestions := failed_count;
     requires_review := review_count;
     validation_results := engine_results self;
     summary_metrics := summary_metrics;
     report_recommendations :=
       [ CoverageAchieved validation_coverage;
         OverallQualityScore overall_quality_score;
         RequiringAttention (failed_count + review_count) ];
     critical_issues := list_to_set critical_issues |}.

Section Orchestrator.

Variable validate_single_criterion : Evaluator.

(** [self.validation_results.append(r); self.coverage_tracker[id].add(c)] *)
Definition record_result (self : Engine) (suggestion_id : string)
    (c : ValidationCriteria) (r : ValidationResult) : Engine :=
  {| engine_results := engine_results self ++ [r];
     coverage_tracker := dict_add (coverage_tracker self) suggestion_id c;
     existing_functions_db := existing_functions_db self |}.

(** [self.coverage_tracker[suggestion_id] = set()] *)
Definition reset_tracker (self : Engine) (suggestion_id : string) : Engine :=
  {| engine_results := engine_results self;
     coverage_tracker := dict_set (coverage_tracker self) suggestion_id ∅;
     existing_functions_db := existing_functions_db self |}.

(** [for criteria in ValidationCriteria]: stops at the first exception. *)
Fixpoint criteria_loop (self : Engine) (suggestion : Suggestion)
    (implementation_spec : ImplementationSpec) (suggestion_id : string)
    (validations_completed : nat) (cs : list ValidationCriteria)
    : Engine * (exn + nat) :=
  match cs with
  | [] => (self, inr validations_completed)
  | c :: cs' =>
      match validate_single_criterion self suggestion implementation_spec c
              suggestion_id with
      | inl e => (self, inl e)
      | inr validation_result =>
          criteria_loop (record_result self suggestion_id c validation_result)
            suggestion implementation_spec suggestion_id
            (S validations_completed) cs'
      end
  end.

(** [for i, suggestion in enumerate(suggestions)], from index [i]. *)
Fixpoint suggestions_loop (self : Engine)
    (implementation_specs : list ImplementationSpec) (i : nat)
    (suggestions : list Suggestion) (validations_completed : nat)
    : Engine * (exn + nat) :=
  match suggestions with
  | [] => (self, inr validations_completed)
  | suggestion :: rest =>
      let suggestion_id :=
        default ("suggestion_" ++ pretty i) (sg_id suggestion) in
      match implementation_specs !! i with
      | None => (self, inl IndexError)
      | Some implementation_spec =>
          match criteria_loop (reset_tracker self suggestion_id) suggestion
                  implementation_spec suggestion_id validations_completed
                  all_criteria with
          | (self', inl e) => (self', inl e)
          | (self', inr completed) =>
              suggestions_loop self' implementation_specs (S i) rest completed
          end
      end
  end.

Definition validate_comprehensive_coverage_with (self : Engine)
    (suggestions : list Suggestion)
    (implementation_specs : list ImplementationSpec)
    : Engine * (exn + ComprehensiveValidationReport) :=
  if negb (length suggestions =? length implementation_specs)%nat
  then (self, inl ValidationError_mismatch)
  else
    let total_validations_required :=
      (length suggestions * length all_criteria)%nat in
    match suggestions_loop self implementation_specs 0 suggestions 0 with
    | (self', inl e) => (self', inl (ValidationError_failed e))
    | (self', inr validations_completed) =>
        let coverage_verification := _verify_coverage_completeness self' in
        let validation_report :=
          _generate_comprehensive_report self' suggestions
            validations_completed total_validations_required in
        if Qlt_bool (validation_coverage validation_report) 1
        then (self', inl (ValidationError_failed
                            (ValidationError_coverage
                               (validation_coverage validation_report))))
        else (self', inr validation_report)
    end.

End Orchestrator.

(** The method as the class defines it. *)
Definition validate_comprehensive_coverage :=
  validate_comprehensive_coverage_with _validate_single_criterion.

End ValidationEngine.

(** ** Reachable states and sample inputs *)

Import ValidationEngine.

(** Engine states the class can be in: constructed, then any number of
    calls of its one public method. *)
Inductive reachable : Engine → Prop :=
| reachable_init : reachable __init__
| reachable_validate self suggestions specs :
    reachable self →
    reachable (validate_comprehensive_coverage self suggestions specs).1.

Definition filter_entity : ExistingFunc :=
  {| ef_name := Some "Filter"; ef_description := Some "element filtering" |}.

Definition filter_candidate : Suggestion :=
  {| sg_id := Some "cand_1";
     sg_name := Some "filter";
     sg_description := Some "advanced element filtering tool";
     sg_category := Some "Selection Tools" |}.

Definition engine_with_db (db : list ExistingFunc) : Engine :=
  {| engine_results := []; coverage_tracker := [];
     existing_functions_db := Some db |}.

(** ** The batch as a work list

    The (candidate, criterion) pairs of a batch in the order the two
    nested loops visit them, and their evaluation up to the first
    exception.  These restate the loops for the statements below; the
    loops themselves are [criteria_loop] and [suggestions_loop]. *)

Definition WorkItem : Type :=
  Suggestion * ImplementationSpec * string * ValidationCriteria.

Definition apply_item (ev : Evaluator) (self : Engine) (w : WorkItem)
    : exn + ValidationResult :=
  let '(s, sp, id, c) := w in ev self s sp c id.

Definition items_of (i : nat) (s : Suggestion) (sp : ImplementationSpec)
    : list WorkItem :=
  map (fun c => (s, sp, default ("suggestion_" ++ pretty i) (sg_id s), c))
      all_criteria.

Fixpoint work_items (i : nat) (suggestions : list Suggestion)
    (specs : list ImplementationSpec) : list WorkItem :=
  match suggestions, specs with
  | s :: ss, sp :: sps => items_of i s sp ++ work_items (S i) ss sps
  | _, _ => []
  end.

Fixpoint eval_items (f : WorkItem -> exn + ValidationResult)
    (items : list WorkItem) : list ValidationResult * option exn :=
  match items with
  | [] => ([], None)
  | w :: rest =>
      match f w with
      | inl e => ([], Some e)
      | inr r => let '(rs, o) := eval_items f rest in (r :: rs, o)
      end
  end.

(** An evaluator that reads nothing of the engine but the database
    attribute, as the methods of the class do. *)
Definition reads_only_db (ev : Evaluator) : Prop :=
  forall self self' s sp c id,
    existing_functions_db self = existing_functions_db self' ->
    ev self s sp c id = ev self' s sp c id.

(** An evaluator that returns a result for every criterion. *)
Definition always_returns (ev : Evaluator) : Prop :=
  forall self s sp c id, exists r, ev self s sp c id = inr r.

(** The stand-in the test suite patches over
    [_validate_single_criterion]: one fixed passing result. *)
Definition mock_validate : Evaluator :=
  fun _ _ _ _ _ =>
    inr {| suggestion_id := "test_1";
           criteria := TECHNICAL_FEASIBILITY;
           status := PASSED;
           score := 85 # 100;
           details := DetailsText "";
           recommendations := [];
           blocking_issues := [] |}.

Definition second_candidate : Suggestion :=
  {| sg_id := Some "cand_2";
     sg_name := Some "Parameter Analyzer";
     sg_description := Some "Comprehensive parameter analysis tool";
     sg_category := Some "Analysis Tools" |}.

Definition sample_spec : ImplementationSpec :=
  {| api_requirements := Some ["FilteredElementCollector"];
     external_dependencies := None;
     revit_compatibility_score := None;
     effort_estimate := None |}.

(** ** Sample catalogue *)

Definition filter_fn : CapabilityMapper.ExistingFunction :=
  {| CapabilityMapper.name := "Filter";
     CapabilityMapper.module_path := "revitron.Filter";
     CapabilityMapper.function_signature := "Filter(...)";
     CapabilityMapper.description := "element filtering";
     CapabilityMapper.parameters := [];
     CapabilityMapper.return_type := None;
     CapabilityMapper.examples := [];
     CapabilityMapper.related_functions := [];
     CapabilityMapper.categories := ["revitron"];
     CapabilityMapper.source_location := "revitron_docs";
     CapabilityMapper.documentation_url := None |}.

(** Same lowercase name and module path as [filter_fn], another
    description. *)
Definition shadowed_fn : CapabilityMapper.ExistingFunction :=
  {| CapabilityMapper.name := "filter";
     CapabilityMapper.module_path := "revitron.filter";
     CapabilityMapper.function_signature := "filter(...)";
     CapabilityMapper.description := "export schedule data";
     CapabilityMapper.parameters := [];
     CapabilityMapper.return_type := None;
     CapabilityMapper.examples := [];
     CapabilityMapper.related_functions := [];
     CapabilityMapper.categories := ["pyrevit"];
     CapabilityMapper.source_location := "pyrevit_docs";
     CapabilityMapper.documentation_url := None |}.

Definition sample_mapper : CapabilityMapper.Mapper :=
  {| CapabilityMapper.existing_functions := [filter_fn; shadowed_fn];
     CapabilityMapper.duplicate_detection_db := [] |}.

(** [f] is the first entity of [fs] that generates [key]. *)
Definition first_generated_by (key : string)
    (f : CapabilityMapper.ExistingFunction)
    (fs : list CapabilityMapper.ExistingFunction) : Prop :=
  exists pre post,
    fs = (pre ++ f :: post)%list /\
    key ∈ CapabilityMapper.lookup_keys f /\
    forall g, g ∈ pre -> key ∉ CapabilityMapper.lookup_keys g.

(** A candidate repeating [filter_entity] word for word. *)
Definition copy_candidate : Suggestion :=
  {| sg_id := Some "cand_3";
     sg_name := Some "Filter";
     sg_description := Some "Element filtering";
     sg_category := None |}.

(** A tracker entry is complete when it holds all seven criteria. *)
Definition tracker_complete (t : list (string * gset ValidationCriteria)) : Prop :=
  Forall (fun kv => kv.2 = list_to_set all_criteria) t.

(** What the build keeps true of the table, for entities drawn from [F]. *)
Definition table_ok (F : list CapabilityMapper.ExistingFunction)
    (db : CapabilityMapper.LookupTable) : Prop :=
  NoDup (map fst db) /\
  forall k g, (k, g) ∈ db ->
    k <> "" /\ g ∈ F /\ k ∈ CapabilityMapper.lookup_keys g.

(** ** [api_capability_mapper.py]: the mapping run

    The rest of [CapabilityMapper]: extraction from documentation text,
    the built-in catalogue, categorisation, completeness and
    [map_existing_functionality].  [re.findall] belongs to the Python
    library and is a parameter; what the class does with its matches is
    embedded. *)

Module MappingRun.

Import CapabilityMapper.

(** An element of a [re.findall] result: a string, or for a pattern with
    several groups the tuple of the groups (never empty). *)
Inductive Match :=
| MatchStr (s : string)
| MatchTuple (first : string) (others : list string).

(** [ExistingFunction(...)] with the dataclass defaults for the fields
    the class never passes. *)
Definition make_function (name module_path function_signature description : string)
    (parameters categories : list string) (source_location : string)
    : ExistingFunction :=
  {| name := name;
     module_path := module_path;
     function_signature := function_signature;
     description := description;
     parameters := parameters;
     return_type := None;
     examples := [];
     related_functions := [];
     categories := categories;
     source_location := source_location;
     documentation_url := None |}.

(** [self.signature_patterns.get(source_type, [])] *)
Definition signature_patterns (source_type : string) : list string :=
  if String.eqb source_type "revitron" then
    [ "revitron\.(\w+)\.(\w+)";
      "class\s+(\w+).*?def\s+(\w+)";
      "def\s+(\w+)\s*\([^)]*\)" ]
  else if String.eqb source_type "pyrevit" then
    [ "@pyrevit\.(\w+)";
      "class\s+(\w+Command)";
      "def\s+(\w+)\s*\([^)]*\)" ]
  else if String.eqb source_type "revit_api" then
    [ "Autodesk\.Revit\.(\w+)\.(\w+)";
      "Transaction\s*\([^)]*\)";
      "FilteredElementCollector" ]
  else [].

(** The body of [for match in matches]. *)
Definition function_of_match (source_type source_name : string) (m : Match)
    : ExistingFunction :=
  let '(name, module_path) :=
    match m with
    | MatchTuple first (second :: _) => (second, first ++ "." ++ second)
    | MatchTuple first [] => (first, first)
    | MatchStr s => (s, s)
    end in
  make_function name module_path (name ++ "(...)")
    ("Function extracted from " ++ source_name) [] [source_type] source_name.

Definition known_revitron_functions : list ExistingFunction :=
  [ make_function "Filter" "revitron.Filter" "Filter(elements)"
      "Primary filtering class for element selection and filtering operations"
      ["elements"] ["filtering"; "selection"] "revitron.Filter";
    make_function "by_category" "revitron.Filter.by_category"
      "by_category(category)" "Filter elements by Revit category"
      ["category"] ["filtering"; "category"] "revitron.Filter";
    make_function "by_parameter" "revitron.Filter.by_parameter"
      "by_parameter(parameter, value)" "Filter elements by parameter value"
      ["parameter"; "value"] ["filtering"; "parameters"] "revitron.Filter";
    make_function "intersect" "revitron.Filter.intersect" "intersect(geometry)"
      "Filter elements by geometric intersection"
      ["geometry"] ["filtering"; "geometry"; "intersection"] "revitron.Filter";
    make_function "range" "revitron.Filter.range"
      "range(parameter, min_val, max_val)"
      "Filter elements by parameter value range"
      ["parameter"; "min_val"; "max_val"] ["filtering"; "parameters"; "range"]
      "revitron.Filter";
    make_function "Element" "revitron.Element" "Element(element)"
      "Wrapper class for Revit elements with enhanced functionality"
      ["element"] ["elements"; "wrapper"] "revitron.Element";
    make_function "Parameter" "revitron.Parameter"
      "Parameter(element, parameter_name)"
      "Parameter access and manipulation utilities"
      ["element"; "parameter_name"] ["parameters"; "utilities"]
      "revitron.Parameter";
    make_function "Selection" "revitron.Selection" "Selection()"
      "Selection management and utilities"
      [] ["selection"; "utilities"] "revitron.Selection" ].

Definition known_pyrevit_functions : list ExistingFunction :=
  [ make_function "get_selection" "pyrevit.revit.selection" "get_selection()"
      "Get currently selected elements" [] ["selection"; "utilities"]
      "pyrevit.revit";
    make_function "pick_element" "pyrevit.revit.selection" "pick_element()"
      "Interactive element selection" [] ["selection"; "interactive"]
      "pyrevit.revit";
    make_function "forms.alert" "pyrevit.forms" "alert(message)"
      "Display alert dialog to user" ["message"] ["ui"; "dialogs"]
      "pyrevit.forms";
    make_function "script.get_config" "pyrevit.script" "get_config()"
      "Get script configuration" [] ["configuration"; "scripts"]
      "pyrevit.script";
    make_function "output.print_table" "pyrevit.output" "print_table(data)"
      "Print formatted table to output window" ["data"]
      ["output"; "formatting"] "pyrevit.output" ].

Definition known_revit_api_functions : list ExistingFunction :=
  [ make_function "FilteredElementCollector"
      "Autodesk.Revit.DB.FilteredElementCollector"
      "FilteredElementCollector(document)"
      "Collect filtered elements from Revit document"
      ["document"] ["collection"; "filtering"] "Revit API";
    make_function "Transaction" "Autodesk.Revit.DB.Transaction"
      "Transaction(document, name)"
      "Create transaction for model modifications"
      ["document"; "name"] ["transactions"; "modifications"] "Revit API";
    make_function "ElementCategoryFilter"
      "Autodesk.Revit.DB.ElementCategoryFilter"
      "ElementCategoryFilter(category)" "Filter elements by category"
      ["category"] ["filtering"; "category"] "Revit API";
    make_function "ParameterFilterElement"
      "Autodesk.Revit.DB.ParameterFilterElement"
      "ParameterFilterElement.Create(document, name, categories, rules)"
      "Create parameter-based filter"
      ["document"; "name"; "categories"; "rules"]
      ["filtering"; "parameters"] "Revit API" ].

(** [categories[category].append(name)], creating the list when the key
    is new; the dict keeps insertion order. *)
Fixpoint category_append (categories : list (string * list string))
    (category name : string) : list (string * list string) :=
  match categories with
  | [] => [(category, [name])]
  | (c, names) :: rest =>
      if String.eqb c category then (c, (names ++ [name])%list) :: rest
      else (c, names) :: category_append rest category name
  end.

(** [categories.get(category)] *)
Fixpoint category_get (categories : list (string * list string))
    (category : string) : option (list string) :=
  match categories with
  | [] => None
  | (c, names) :: rest =>
      if String.eqb c category then Some names else category_get rest category
  end.

(** The two nested loops of [_categorize_functionality]. *)
Definition categorize (fs : list ExistingFunction) : list (string * list string) :=
  foldl (fun categories function =>
           foldl (fun categories category =>
                    category_append categories category (name function))
                 categories (CapabilityMapper.categories function))
        [] fs.

Definition expected_counts : list (string * nat) :=
  [("revitron", 50); ("pyrevit", 100); ("revit_api", 30)].

(** [actual_counts[category] = actual_counts.get(category, 0) + 1] *)
Fixpoint bump (actual_counts : list (string * nat)) (category : string)
    : list (string * nat) :=
  match actual_counts with
  | [] => [(category, 1)]
  | (c, n) :: rest =>
      if String.eqb c category then (c, S n) :: rest
      else (c, n) :: bump rest category
  end.

(** [sum(d.values())] *)
Definition sum_values (d : list (string * nat)) : nat :=
  foldl Nat.add 0 (map snd d).

(** [category in expected_counts] *)
Definition expected (category : string) : bool :=
  bool_decide (category ∈ map fst expected_counts).

Definition actual_counts (fs : list ExistingFunction) : list (string * nat) :=
  foldl (fun counts function =>
           foldl (fun counts category =>
                    if expected category then bump counts category else counts)
                 counts (CapabilityMapper.categories function))
        [] fs.

(** [_calculate_mapping_completeness], on [self.existing_functions]. *)
Definition mapping_completeness (fs : list ExistingFunction) : Q :=
  let total_expected := sum_values expected_counts in
  let total_actual := sum_values (actual_counts fs) in
  if (0 <? total_expected)%nat
  then Qmin 1 (ratio total_actual total_expected)
  else 0%Q.

Record ResearchData := {
  content_extracted : option (gmap string string)
}.

(** [research_data.get('content_extracted', {}).get(source, '')] *)
Definition content_of (research_data : ResearchData) (source : string) : string :=
  default "" (default ∅ (content_extracted research_data) !! source).

(** The attributes of a mapper: the two of [CapabilityMapper.Mapper] and
    the two the mapping run also uses. *)
Record State := {
  research_data : ResearchData;
  functionality_categories : list (string * list string);
  mapper : Mapper
}.

Record FunctionalityMapping := {
  total_functions_mapped : nat;
  revitron_functions : list ExistingFunction;
  pyrevit_functions : list ExistingFunction;
  revit_api_functions : list ExistingFunction;
  fm_functionality_categories : list (string * list string);
  fm_mapping_completeness : Q;
  duplicate_detection_database : LookupTable
}.

(** [MappingError]: the threshold check, and the re-raise of the handler
    around the whole run. *)
Inductive MappingError :=
| MappingError_threshold (completeness : Q)
| MappingError_failed (cause : MappingError).

(** [self.existing_functions.extend(fs)] *)
Definition extend_functions (self : State) (fs : list ExistingFunction) : State :=
  {| research_data := research_data self;
     functionality_categories := functionality_categories self;
     mapper := {| existing_functions :=
                    (existing_functions (mapper self) ++ fs)%list;
                  duplicate_detection_db := duplicate_detection_db (mapper self) |} |}.

Section WithRegex.

(** [re.findall(pattern, content, re.MULTILINE | re.IGNORECASE)] *)
Variable findall : string -> string -> list Match.

Definition _extract_functions_from_content (content source_type source_name : string)
    : list ExistingFunction :=
  flat_map (fun pattern =>
              map (function_of_match source_type source_name)
                  (findall pattern content))
           (signature_patterns source_type).

Definition _map_revitron_functions (self : State) : State * list ExistingFunction :=
  let revitron_content := content_of (research_data self) "Revitron Documentation" in
  let revitron_functions :=
    ((if PyStr.truthy revitron_content
      then _extract_functions_from_content revitron_content "revitron"
             "Revitron Documentation"
      else [])
     ++ known_revitron_functions)%list in
  (extend_functions self revitron_functions, revitron_functions).

Definition _map_pyrevit_functions (self : State) : State * list ExistingFunction :=
  let pyrevit_content := content_of (research_data self) "PyRevit Documentation" in
  let pyrevit_functions :=
    ((if PyStr.truthy pyrevit_content
      then _extract_functions_from_content pyrevit_content "pyrevit"
             "PyRevit Documentation"
      else [])
     ++ known_pyrevit_functions)%list in
  (extend_functions self pyrevit_functions, pyrevit_functions).

Definition _map_revit_api_functions (self : State) : State * list ExistingFunction :=
  (extend_functions self known_revit_api_functions, known_revit_api_functions).

Definition _categorize_functionality (self : State)
    : State * list (string * list string) :=
  let categories := categorize (existing_functions (mapper self)) in
  ({| research_data := research_data self;
      functionality_categories := categories;
      mapper := mapper self |}, categories).

Definition _calculate_mapping_completeness (self : State) : Q :=
  mapping_completeness (existing_functions (mapper self)).

Definition map_existing_functionality (self : State)
    : State * (MappingError + FunctionalityMapping) :=
  let '(self1, revitron_functions) := _map_revitron_functions self in
  let '(self2, pyrevit_functions) := _map_pyrevit_functions self1 in
  let '(self3, revit_api_functions) := _map_revit_api_functions self2 in
  let '(self4, functionality_categories) := _categorize_functionality self3 in
  let '(mapper5, duplicate_db) :=
    _build_duplicate_detection_database (mapper self4) in
  let self5 := {| research_data := research_data self4;
                  functionality_categories :=
                    MappingRun.functionality_categories self4;
                  mapper := mapper5 |} in
  let mapping_completeness := _calculate_mapping_completeness self5 in
  let functionality_mapping :=
    {| total_functions_mapped := length (existing_functions (mapper self5));
       revitron_functions := revitron_functions;
       pyrevit_functions := pyrevit_functions;
       revit_api_functions := revit_api_functions;
       fm_functionality_categories := functionality_categories;
       fm_mapping_completeness := mapping_completeness;
       duplicate_detection_database := duplicate_db |} in
  if Qlt_bool mapping_completeness (9 # 10)
  then (self5, inl (MappingError_failed
                      (MappingError_threshold mapping_completeness)))
  else (self5, inr functionality_mapping).

(** The functions a run extracts from one documentation text. *)
Definition extracted (self : State) (source_type source_name : string)
    : list ExistingFunction :=
  if PyStr.truthy (content_of (research_data self) source_name)
  then _extract_functions_from_content
         (content_of (research_data self) source_name) source_type source_name
  else [].

End WithRegex.

(** The category tags of a catalogue, in iteration order: one
    (name, category) pair per function and category. *)
Definition tags (fs : list ExistingFunction) : list (string * string) :=
  flat_map (fun f => map (fun c => (name f, c)) (CapabilityMapper.categories f)) fs.

(** Filing one tag. *)
Definition tag_step (cats : list (string * list string)) (t : string * string)
    : list (string * list string) :=
  category_append cats t.2 t.1.

(** How many tags are among the three expected categories. *)
Definition counted_tags (fs : list ExistingFunction) : nat :=
  length (filter (fun t => Is_true (expected t.2)) (tags fs)).

End MappingRun.

(** ** [main_controller.py]: the two phases that call the above

    Both phases index the returned dataclass instance with a string key
    ([validation_results['validation_coverage']],
    [capability_data['existing_functions']]); a dataclass defines no
    [__getitem__], so that expression raises [TypeError]. *)

Module Controller.

Inductive Raised :=
| RaisedValidationError (e : ValidationEngine.exn)
| RaisedMappingError (e : MappingRun.MappingError)
| TypeError_not_subscriptable (class_name : string)
| CriticalFrameworkError (message : string).

(** [CapabilityMapper(research_results)] *)
Definition new_mapper (research_results : MappingRun.ResearchData)
    : MappingRun.State :=
  {| MappingRun.research_data := research_results;
     MappingRun.functionality_categories := [];
     MappingRun.mapper :=
       {| CapabilityMapper.existing_functions := [];
          CapabilityMapper.duplicate_detection_db := [] |} |}.

(** Returns the mapper the controller keeps and the outcome. *)
Definition _execute_capability_mapping
    (findall : string -> string -> list MappingRun.Match)
    (research_results : MappingRun.ResearchData)
    : MappingRun.State * (Raised + MappingRun.FunctionalityMapping) :=
  let capability_mapper := new_mapper research_results in
  match MappingRun.map_existing_functionality findall capability_mapper with
  | (capability_mapper', inl e) => (capability_mapper', inl (RaisedMappingError e))
  | (capability_mapper', inr capability_data) =>
      (capability_mapper', inl (TypeError_not_subscriptable "FunctionalityMapping"))
  end.


End Controller.

(** * Properties

    ** Rationals *)

Lemma pos_of_nat_Z (b : nat) : (0 < b)%nat → Z.pos (Pos.of_nat b) = Z.of_nat b.
Proof. lia. Qed.

Lemma ratio_make (a b : nat) :
  (0 < b)%nat → (ratio a b == Z.of_nat a # Pos.of_nat b)%Q.
Proof.
  intros Hb. unfold ratio. rewrite Qmake_Qdiv.
  by rewrite pos_of_nat_Z.
Qed.

Lemma ratio_bounds (a b : nat) :
  (0 < b)%nat → (a ≤ b)%nat → (0 <= ratio a b <= 1)%Q.
Proof.
  intros Hb Hab. rewrite (ratio_make a b Hb). unfold Qle; simpl.
  rewrite pos_of_nat_Z by done. split; lia.
Qed.

Lemma ratio_one (a b : nat) :
  (0 < b)%nat → (ratio a b == 1)%Q ↔ a = b.
Proof.
  intros Hb. rewrite (ratio_make a b Hb). unfold Qeq; simpl.
  rewrite pos_of_nat_Z by done. lia.
Qed.

Lemma ratio_zero (a b : nat) :
  (0 < b)%nat → (ratio a b == 0)%Q ↔ a = 0%nat.
Proof.
  intros Hb. rewrite (ratio_make a b Hb). unfold Qeq; simpl. lia.
Qed.

(** ** Text similarity *)

Lemma set_truthy_spec (s : gset string) : set_truthy s = true ↔ s ≠ ∅.
Proof.
  unfold set_truthy. rewrite negb_true_iff, bool_decide_eq_false. done.
Qed.

Lemma similarity_cases (a b : string) :
  ValidationEngine._calculate_text_similarity a b =
  if bool_decide (words a = ∅ ∨ words b = ∅) then 0%Q
  else ratio (size (words a ∩ words b)) (size (words a ∪ words b)).
Proof.
  unfold ValidationEngine._calculate_text_similarity, set_truthy.
  destruct (decide (words a = ∅)) as [Ha|Ha].
  { rewrite (bool_decide_eq_true_2 _ Ha). simpl.
    rewrite bool_decide_eq_true_2; [done|by left]. }
  rewrite (bool_decide_eq_false_2 _ Ha). simpl.
  destruct (decide (words b = ∅)) as [Hb|Hb].
  { rewrite (bool_decide_eq_true_2 _ Hb). simpl.
    rewrite bool_decide_eq_true_2; [done|by right]. }
  rewrite (bool_decide_eq_false_2 _ Hb). simpl.
  rewrite (bool_decide_eq_false_2 (_ ∨ _)) by tauto.
  rewrite bool_decide_eq_false_2; [done|]. set_solver.
Qed.

Lemma mapper_similarity_same (a b : string) :
  CapabilityMapper._calculate_text_similarity a b =
  ValidationEngine._calculate_text_similarity a b.
Proof. reflexivity. Qed.

(** C9. [_calculate_text_similarity] (the same function in both classes)
    is 0.0 when either lowercased whitespace-token set is empty and is
    otherwise |intersection| / |union| of the two sets; hence it lies in
    [0,1] and is 1.0 exactly when the two sets are identical and
    non-empty. *)
Theorem text_similarity_is_jaccard (a b : string) :
  let sim := ValidationEngine._calculate_text_similarity a b in
  CapabilityMapper._calculate_text_similarity a b = sim ∧
  (words a = ∅ ∨ words b = ∅ → sim = 0%Q) ∧
  (words a ≠ ∅ → words b ≠ ∅ →
   sim = ratio (size (words a ∩ words b)) (size (words a ∪ words b))) ∧
  (0 <= sim <= 1)%Q ∧
  ((sim == 1)%Q ↔ words a = words b ∧ words a ≠ ∅).
Proof.
  cbv zeta. split; [apply mapper_similarity_same|].
  rewrite similarity_cases.
  case_bool_decide as Hempty.
  - split; [done|]. split; [tauto|]. split; [split; by vm_compute|].
    split; [by vm_compute|]. intros [Heq Hne]. rewrite <- Heq in Hempty. tauto.
  - assert (words a ≠ ∅ ∧ words b ≠ ∅) as [Ha Hb] by tauto.
    assert (0 < size (words a ∪ words b))%nat as Hpos.
    { assert (size (words a ∪ words b) ≠ 0)%nat; [|lia].
      apply size_non_empty_iff. set_solver. }
    assert (size (words a ∩ words b) ≤ size (words a ∪ words b))%nat as Hle.
    { apply subseteq_size. set_solver. }
    split; [tauto|]. split; [done|]. split; [by apply ratio_bounds|].
    rewrite (ratio_one _ _ Hpos). split.
    + intros Hsz. split; [|done].
      assert (words a ∩ words b ≡ words a ∪ words b) as Heq.
      { apply set_subseteq_size_equiv; [set_solver|lia]. }
      apply leibniz_equiv. set_solver.
    + intros [Heq _]. rewrite <- Heq. f_equal. apply leibniz_equiv. set_solver.
Qed.

Lemma similarity_bounds (a b : string) :
  (0 <= ValidationEngine._calculate_text_similarity a b <= 1)%Q.
Proof.
  rewrite similarity_cases. case_bool_decide as Hempty.
  - split; by vm_compute.
  - apply ratio_bounds.
    + assert (size (words a ∪ words b) ≠ 0)%nat; [|lia].
      apply size_non_empty_iff. set_solver.
    + apply subseteq_size. set_solver.
Qed.

Lemma similarity_same_words (a b : string) :
  words a = words b → words a ≠ ∅ →
  (ValidationEngine._calculate_text_similarity a b == 1)%Q.
Proof.
  intros Heq Hne. rewrite similarity_cases.
  rewrite bool_decide_eq_false_2 by (rewrite <- Heq; tauto).
  rewrite <- Heq.
  replace (words a ∩ words a) with (words a) by (apply leibniz_equiv; set_solver).
  replace (words a ∪ words a) with (words a) by (apply leibniz_equiv; set_solver).
  apply ratio_one; [|done].
  assert (size (words a) ≠ 0)%nat; [|lia].
  apply size_non_empty_iff. intros Hemp. apply Hne. by apply leibniz_equiv.
Qed.

Lemma lower_ascii_idem (c : ascii) :
  PyStr.lower_ascii (PyStr.lower_ascii c) = PyStr.lower_ascii c.
Proof. destruct c as [[] [] [] [] [] [] [] []]; reflexivity. Qed.

Lemma lower_idem (s : string) : PyStr.lower (PyStr.lower s) = PyStr.lower s.
Proof. induction s as [|c s IH]; simpl; [done|]. by rewrite lower_ascii_idem, IH. Qed.

Lemma words_lower (s : string) : words (PyStr.lower s) = words s.
Proof. unfold words. by rewrite lower_idem. Qed.

(** ** The duplicate-check criterion *)

Lemma overall_similarity_bounds (n d : string) (e : ExistingFunc) :
  (0 <= overall_similarity n d e <= 1)%Q.
Proof.
  unfold overall_similarity.
  pose proof (similarity_bounds n (PyStr.lower (default "" (ef_name e)))) as [? ?].
  pose proof (similarity_bounds d (PyStr.lower (default "" (ef_description e)))) as [? ?].
  split.
  - apply Qle_shift_div_l; [reflexivity|]. lra.
  - apply Qle_shift_div_r; [reflexivity|]. lra.
Qed.

Lemma duplicate_scan_scores (n d : string) (l : list ExistingFunc) :
  (duplicate_scan n d l).2 = map (overall_similarity n d) l.
Proof.
  induction l as [|e l IH]; simpl; [done|].
  destruct (duplicate_scan n d l) as [dups scores]. simpl in *. by rewrite IH.
Qed.

Lemma Qmax_cases (x z : Q) : Qmax x z = x ∨ Qmax x z = z.
Proof.
  unfold Qmax, GenericMinMax.gmax. destruct (x ?= z)%Q; auto.
Qed.

Lemma foldl_Qmax_ge (x : Q) (l : list Q) :
  (x <= foldl Qmax x l)%Q ∧ ∀ y, y ∈ l → (y <= foldl Qmax x l)%Q.
Proof.
  revert x. induction l as [|z l IH]; intros x; simpl.
  - split; [apply Qle_refl|]. intros y Hy. by apply elem_of_nil in Hy.
  - destruct (IH (Qmax x z)) as [H1 H2]. split.
    + eapply Qle_trans; [apply Q.le_max_l|exact H1].
    + intros y [->|Hy]%elem_of_cons; [|by apply H2].
      eapply Qle_trans; [apply Q.le_max_r|exact H1].
Qed.

Lemma foldl_Qmax_attained (x : Q) (l : list Q) :
  foldl Qmax x l ∈ x :: l.
Proof.
  revert x. induction l as [|z l IH]; intros x; simpl; [set_solver|].
  specialize (IH (Qmax x z)).
  apply elem_of_cons in IH as [Heq|Hin].
  - rewrite Heq. destruct (Qmax_cases x z) as [->| ->]; set_solver.
  - set_solver.
Qed.

(** The greatest per-entity similarity, as the code computes it. *)
Lemma max_similarity_spec (l : list Q) :
  let M := match l with [] => 0%Q | _ => Qmax_list l end in
  (∀ y, y ∈ l → (y <= M)%Q) ∧ (l = [] ∧ M = 0%Q ∨ M ∈ l).
Proof.
  destruct l as [|x l]; simpl.
  - split; [|by left]. intros y Hy. by apply elem_of_nil in Hy.
  - destruct (foldl_Qmax_ge x l) as [H1 H2]. split.
    + intros y [->|Hy]%elem_of_cons; auto.
    + right. apply foldl_Qmax_attained.
Qed.

Lemma duplicate_check_unfold (self : Engine) (s : Suggestion) (id : string) :
  let l := map (overall_similarity
                  (PyStr.lower (default "" (sg_name s)))
                  (PyStr.lower (default "" (sg_description s))))
               (default [] (existing_functions_db self)) in
  let M := match l with [] => 0%Q | _ => Qmax_list l end in
  score (_validate_duplicate_check self s id) = Qmax 0 (1 - M) ∧
  status (_validate_duplicate_check self s id) =
    (if Qle_bool 1 (Qmax 0 (1 - M)) then PASSED else FAILED).
Proof.
  cbv zeta. unfold _validate_duplicate_check.
  rewrite <- duplicate_scan_scores.
  destruct (duplicate_scan _ _ _) as [dups scores]. simpl. done.
Qed.

Lemma passed_iff_zero (M : Q) :
  (0 <= M)%Q →
  (if Qle_bool 1 (Qmax 0 (1 - M)) then PASSED else FAILED) = PASSED ↔ (M == 0)%Q.
Proof.
  intros HM. destruct (Qle_bool 1 (Qmax 0 (1 - M))) eqn:Hb.
  - apply Qle_bool_iff in Hb. split; [intros _|done].
    destruct (Q.max_spec 0 (1 - M)) as [[_ Hm]|[_ Hm]]; rewrite Hm in Hb; lra.
  - split; [done|]. intros H0. exfalso.
    assert (Qle_bool 1 (Qmax 0 (1 - M)) = true); [|congruence].
    apply Qle_bool_iff. eapply Qle_trans; [|apply Q.le_max_r]. lra.
Qed.

Lemma duplicate_check_max
    (self : Engine) (suggestion : Suggestion) (suggestion_id : string) :
  let r := _validate_duplicate_check self suggestion suggestion_id in
  let sim := overall_similarity
               (PyStr.lower (default "" (sg_name suggestion)))
               (PyStr.lower (default "" (sg_description suggestion))) in
  let entities := default [] (existing_functions_db self) in
  ∃ M : Q,
    (∀ e, e ∈ entities → (sim e <= M)%Q) ∧
    (entities = [] ∧ M = 0%Q ∨ ∃ e, e ∈ entities ∧ M = sim e) ∧
    score r = Qmax 0 (1 - M) ∧
    (status r = PASSED ↔ (M == 0)%Q) ∧
    (status r = PASSED ↔ (score r == 1)%Q) ∧
    (status r = PASSED ∨ status r = FAILED).
Proof.
  cbv zeta.
  destruct (duplicate_check_unfold self suggestion suggestion_id) as [Hs Hst].
  cbv zeta in Hs, Hst. rewrite Hs, Hst.
  set (sim := overall_similarity _ _).
  set (entities := default [] (existing_functions_db self)).
  destruct (max_similarity_spec (map sim entities)) as [Hub Hatt].
  cbv zeta in Hub, Hatt.
  set (M := match map sim entities with [] => 0%Q | _ => Qmax_list (map sim entities) end) in *.
  assert (0 <= M)%Q as HM.
  { destruct Hatt as [[_ ->]|Hin]; [done|].
    apply list_elem_of_fmap in Hin as (e & -> & _).
    apply overall_similarity_bounds. }
  exists M. split; [|split; [|split; [done|split; [|split]]]].
  - intros e He. apply Hub. apply list_elem_of_fmap. eauto.
  - destruct Hatt as [[Hnil ->]|Hin].
    + left. split; [|done]. by destruct entities.
    + right. apply list_elem_of_fmap in Hin as (e & -> & He). eauto.
  - by apply passed_iff_zero.
  - rewrite (passed_iff_zero M HM).
    destruct (Q.max_spec 0 (1 - M)) as [[Hc Hm]|[Hc Hm]]; rewrite Hm; split; lra.
  - destruct (Qle_bool 1 _); auto.
Qed.

(** C5. The duplicate-check score is max(0, 1 - M) for M the greatest
    per-entity similarity (0 for an empty database), and the status is
    PASSED exactly when M = 0 (score exactly 1.0), FAILED otherwise. *)
Theorem duplicate_check_score_formula
    (self : Engine) (suggestion : Suggestion) (suggestion_id : string) :
  let r := _validate_duplicate_check self suggestion suggestion_id in
  let sim := overall_similarity
               (PyStr.lower (default "" (sg_name suggestion)))
               (PyStr.lower (default "" (sg_description suggestion))) in
  let entities := default [] (existing_functions_db self) in
  ∃ M : Q,
    (∀ e, e ∈ entities → (sim e <= M)%Q) ∧
    (entities = [] ∧ M = 0%Q ∨ ∃ e, e ∈ entities ∧ M = sim e) ∧
    score r = Qmax 0 (1 - M) ∧
    (status r = PASSED ↔ (M == 0)%Q) ∧
    (status r = PASSED ↔ (score r == 1)%Q) ∧
    (status r = PASSED ∨ status r = FAILED).
Proof. exact (duplicate_check_max self suggestion suggestion_id). Qed.

(** *** Exact duplicate by name *)

(** C4, as stated, fails: candidate "filter" against the entity named
    "Filter" is FAILED, but the score is 0.25, not 0.0, because the score
    also averages in the description similarity (here 0.5). *)
Lemma exact_name_duplicate_score_not_zero :
  let r := _validate_duplicate_check (engine_with_db [filter_entity])
             filter_candidate "cand_1" in
  status r = FAILED ∧ (score r == 1 # 4)%Q ∧ ¬ (score r == 0)%Q.
Proof. vm_compute. split; [done|]. split; [done|]. discriminate. Qed.

Lemma filter_name_similarity :
  (_calculate_text_similarity (PyStr.lower "filter")
     (PyStr.lower (default "" (Some "Filter"))) == 1)%Q.
Proof. by vm_compute. Qed.

(** C4, amended. Candidate "filter" against a database holding an entity
    named "Filter": the status is FAILED and the score is at most 0.5;
    it is exactly 0.0 when, in addition, the candidate's description has
    the same non-empty word set as that entity's description. *)
Theorem exact_name_duplicate_fails
    (self : Engine) (db : list ExistingFunc) (e : ExistingFunc)
    (suggestion : Suggestion) (suggestion_id : string)
    (Hdb : existing_functions_db self = Some db)
    (He : e ∈ db)
    (Hename : ef_name e = Some "Filter")
    (Hname : sg_name suggestion = Some "filter") :
  let r := _validate_duplicate_check self suggestion suggestion_id in
  status r = FAILED ∧
  (0 <= score r <= 1 # 2)%Q ∧
  (words (default "" (sg_description suggestion))
     = words (default "" (ef_description e)) →
   words (default "" (sg_description suggestion)) ≠ ∅ →
   (score r == 0)%Q).
Proof.
  cbv zeta.
  destruct (duplicate_check_max self suggestion suggestion_id)
    as (M & Hub & Hatt & Hscore & Hpass & _ & Hst).
  cbv zeta in Hub, Hatt, Hscore, Hpass, Hst.
  rewrite Hdb in Hub, Hatt. simpl in Hub, Hatt.
  pose proof (Hub e He) as HeM.
  assert (M <= 1)%Q as HM1.
  { destruct Hatt as [[-> _]|(e' & _ & ->)]; [by apply elem_of_nil in He|].
    apply overall_similarity_bounds. }
  set (d := PyStr.lower (default "" (sg_description suggestion))) in *.
  pose proof (similarity_bounds d (PyStr.lower (default "" (ef_description e))))
    as [Hd0 Hd1].
  assert (overall_similarity (PyStr.lower (default "" (sg_name suggestion))) d e
          == (1 + _calculate_text_similarity d
                    (PyStr.lower (default "" (ef_description e)))) / 2)%Q as Hov.
  { unfold overall_similarity. rewrite Hname, Hename.
    by rewrite filter_name_similarity. }
  rewrite Hov in HeM.
  assert (1 # 2 <= M)%Q as HMhalf.
  { eapply Qle_trans; [|exact HeM]. apply Qle_shift_div_l; [reflexivity|]. lra. }
  split; [|split].
  - destruct Hst as [Hp|Hf]; [|done]. apply Hpass in Hp. lra.
  - rewrite Hscore.
    destruct (Q.max_spec 0 (1 - M)) as [[Hc Hm]|[Hc Hm]]; rewrite Hm; lra.
  - intros Hw Hne. rewrite Hscore.
    assert (_calculate_text_similarity d
              (PyStr.lower (default "" (ef_description e))) == 1)%Q as Hone.
    { apply similarity_same_words; unfold d; rewrite !words_lower; done. }
    rewrite Hone in HeM.
    assert (1 <= M)%Q by (eapply Qle_trans; [|exact HeM]; by vm_compute).
    destruct (Q.max_spec 0 (1 - M)) as [[Hc Hm]|[Hc Hm]]; rewrite Hm; lra.
Qed.

Lemma exact_name_duplicate_fails_witness :
  let r := _validate_duplicate_check (engine_with_db [filter_entity])
             filter_candidate "cand_1" in
  status r = FAILED ∧
  (0 <= score r <= 1 # 2)%Q ∧
  (words (default "" (sg_description filter_candidate))
     = words (default "" (ef_description filter_entity)) →
   words (default "" (sg_description filter_candidate)) ≠ ∅ →
   (score r == 0)%Q).
Proof.
  apply (exact_name_duplicate_fails (engine_with_db [filter_entity])
           [filter_entity] filter_entity filter_candidate "cand_1").
  - reflexivity.
  - apply list_elem_of_here.
  - reflexivity.
  - reflexivity.
Defined.

(** *** The database attribute is never assigned *)

Section Preservation.

Variable ev : Evaluator.

Lemma criteria_loop_db (self : Engine) s sp id n cs :
  existing_functions_db (criteria_loop ev self s sp id n cs).1
  = existing_functions_db self.
Proof.
  revert self n. induction cs as [|c cs IH]; intros self n; simpl; [done|].
  destruct (ev self s sp c id) as [e|r]; simpl; [done|].
  by rewrite IH.
Qed.

Lemma suggestions_loop_db (self : Engine) specs i suggestions n :
  existing_functions_db (suggestions_loop ev self specs i suggestions n).1
  = existing_functions_db self.
Proof.
  revert self i n.
  induction suggestions as [|s ss IH]; intros self i n;
    cbn [suggestions_loop]; [done|].
  destruct (specs !! i) as [sp|]; [|done].
  pose proof (criteria_loop_db
                (reset_tracker self (default ("suggestion_" ++ pretty i) (sg_id s)))
                s sp (default ("suggestion_" ++ pretty i) (sg_id s)) n all_criteria) as Hc.
  destruct (criteria_loop _ _ _ _ _ _ _) as [self' [e|m]];
    cbn [fst] in *; [done|].
  by rewrite IH.
Qed.

Lemma validate_with_db (self : Engine) suggestions specs :
  existing_functions_db
    (validate_comprehensive_coverage_with ev self suggestions specs).1
  = existing_functions_db self.
Proof.
  unfold validate_comprehensive_coverage_with.
  destruct (negb _); simpl; [done|].
  pose proof (suggestions_loop_db self specs 0 suggestions 0) as Hs.
  destruct (suggestions_loop _ _ _ _ _ _) as [self' [e|m]]; simpl in *; [done|].
  by destruct (Qlt_bool _ _).
Qed.

End Preservation.

Lemma reachable_no_db (self : Engine) :
  reachable self → existing_functions_db self = None.
Proof.
  induction 1 as [|self suggestions specs _ IH]; [done|].
  unfold validate_comprehensive_coverage. by rewrite validate_with_db.
Qed.

(** C3. Nothing assigns [existing_functions_db], so in every state the
    engine reaches the duplicate check runs against the empty default:
    maximum similarity 0.0, score 1.0, status PASSED, for every
    suggestion. *)
Theorem duplicate_check_vacuous
    (self : Engine) (Hreach : reachable self)
    (suggestion : Suggestion) (suggestion_id : string) :
  let r := _validate_duplicate_check self suggestion suggestion_id in
  default [] (existing_functions_db self) = [] ∧
  details r = DuplicateAnalysis 0 0 ∧
  score r = 1%Q ∧
  status r = PASSED ∧
  blocking_issues r = [].
Proof.
  cbv zeta. unfold _validate_duplicate_check.
  rewrite (reachable_no_db self Hreach). simpl. done.
Qed.

Lemma duplicate_check_vacuous_witness :
  let self := (validate_comprehensive_coverage __init__
                 [filter_candidate] [sample_spec]).1 in
  let r := _validate_duplicate_check self second_candidate "cand_2" in
  default [] (existing_functions_db self) = [] ∧
  details r = DuplicateAnalysis 0 0 ∧
  score r = 1%Q ∧
  status r = PASSED ∧
  blocking_issues r = [].
Proof.
  exact (duplicate_check_vacuous _
           (reachable_validate __init__ [filter_candidate] [sample_spec]
              reachable_init)
           second_candidate "cand_2").
Defined.

(** ** The coverage loop *)

Lemma eval_items_app f (l1 l2 : list WorkItem) :
  eval_items f (l1 ++ l2) =
  match eval_items f l1 with
  | (rs, Some e) => (rs, Some e)
  | (rs, None) => ((rs ++ (eval_items f l2).1)%list, (eval_items f l2).2)
  end.
Proof.
  induction l1 as [|w l1 IH]; simpl.
  - by destruct (eval_items f l2).
  - destruct (f w) as [e|r]; [done|]. rewrite IH.
    destruct (eval_items f l1) as [rs [e|]]; done.
Qed.

Lemma eval_items_abort f (done_ rest : list WorkItem) w rs e :
  Forall2 (fun w r => f w = inr r) done_ rs →
  f w = inl e →
  eval_items f (done_ ++ w :: rest) = (rs, Some e).
Proof.
  intros Hdone Hw. induction Hdone as [|w' r done_ rs Hr _ IH]; simpl.
  - by rewrite Hw.
  - by rewrite Hr, IH.
Qed.

Lemma eval_items_ext f g (l : list WorkItem) :
  (∀ w, f w = g w) → eval_items f l = eval_items g l.
Proof.
  intros Hfg. induction l as [|w l IH]; simpl; [done|].
  by rewrite Hfg, IH.
Qed.

Section LoopSpec.

Variable ev : Evaluator.
Hypothesis Hind : reads_only_db ev.
Variable self0 : Engine.

Lemma criteria_loop_spec s sp id cs :
  ∀ self n,
    existing_functions_db self = existing_functions_db self0 →
    let res := eval_items (apply_item ev self0)
                 (map (fun c => (s, sp, id, c)) cs) in
    let out := criteria_loop ev self s sp id n cs in
    engine_results out.1 = (engine_results self ++ res.1)%list ∧
    existing_functions_db out.1 = existing_functions_db self0 ∧
    out.2 = match res.2 with
            | Some e => inl e
            | None => inr (n + length cs)%nat
            end.
Proof.
  induction cs as [|c cs IH]; intros self n Hdb; cbn [criteria_loop map eval_items].
  - cbn. rewrite app_nil_r. split; [done|]. split; [done|]. f_equal. lia.
  - cbn [apply_item]. rewrite (Hind self self0 s sp c id Hdb).
    destruct (ev self0 s sp c id) as [e|r].
    + cbn. rewrite app_nil_r. done.
    + destruct (IH (record_result self id c r) (S n)) as (H1 & H2 & H3); [done|].
      cbv zeta in H1, H2, H3.
      destruct (eval_items _ _) as [rs o]. cbn [fst snd] in *.
      rewrite H1, H2, H3. cbn. rewrite <- app_assoc. cbn.
      split; [done|]. split; [done|]. destruct o; [done|]. f_equal. lia.
Qed.

Lemma suggestions_loop_spec specs_all suggestions :
  ∀ sps self i n,
    existing_functions_db self = existing_functions_db self0 →
    drop i specs_all = sps →
    length suggestions = length sps →
    let res := eval_items (apply_item ev self0) (work_items i suggestions sps) in
    let out := suggestions_loop ev self specs_all i suggestions n in
    engine_results out.1 = (engine_results self ++ res.1)%list ∧
    existing_functions_db out.1 = existing_functions_db self0 ∧
    out.2 = match res.2 with
            | Some e => inl e
            | None => inr (n + length suggestions * length all_criteria)%nat
            end.
Proof.
  induction suggestions as [|s ss IH]; intros sps self i n Hdb Hdrop Hlen;
    cbn [suggestions_loop work_items].
  - cbn. rewrite app_nil_r. split; [done|]. split; [done|]. f_equal. lia.
  - destruct sps as [|sp sps]; [done|].
    assert (specs_all !! i = Some sp) as Hi.
    { rewrite <- (Nat.add_0_r i), <- lookup_drop, Hdrop. done. }
    assert (drop (S i) specs_all = sps) as Hdrop'.
    { replace (S i) with (i + 1)%nat by lia.
      by rewrite <- drop_drop, Hdrop. }
    rewrite Hi. rewrite eval_items_app.
    set (id := default ("suggestion_" ++ pretty i) (sg_id s)).
    destruct (criteria_loop_spec s sp id all_criteria (reset_tracker self id) n)
      as (H1 & H2 & H3); [done|].
    cbv zeta in H1, H2, H3.
    unfold items_of. fold id.
    destruct (criteria_loop ev _ s sp id n all_criteria) as [self' o'].
    cbn [fst snd] in H1, H2, H3.
    destruct (eval_items (apply_item ev self0)
                (map (fun c => (s, sp, id, c)) all_criteria)) as [rs [e|]];
      cbn [fst snd] in H1, H3; subst o'.
    + cbn. done.
    + destruct (IH sps self' (S i) (n + length all_criteria)%nat)
        as (G1 & G2 & G3); [done|done|by inversion Hlen|].
      cbv zeta in G1, G2, G3. rewrite G1, G2, G3, H1. cbn [fst snd reset_tracker engine_results].
      rewrite <- app_assoc. split; [done|]. split; [done|].
      destruct (eval_items _ _).2; [done|]. f_equal. cbn. lia.
Qed.

End LoopSpec.

Lemma coverage_full (n : nat) :
  (0 < n)%nat → Qlt_bool (ratio n n) 1 = false.
Proof.
  intros Hn. unfold Qlt_bool. apply negb_false_iff, Qle_bool_iff.
  rewrite (proj2 (ratio_one n n Hn) eq_refl). apply Qle_refl.
Qed.

Lemma report_coverage (self : Engine) suggestions (completed required : nat) :
  validation_coverage
    (_generate_comprehensive_report self suggestions completed required)
  = if (0 <? required)%nat then ratio completed required else 0%Q.
Proof. reflexivity. Qed.

Lemma validate_with_spec (ev : Evaluator) (Hind : reads_only_db ev)
    (self : Engine) suggestions specs :
  length suggestions = length specs →
  let res := eval_items (apply_item ev self) (work_items 0 suggestions specs) in
  let out := validate_comprehensive_coverage_with ev self suggestions specs in
  let N := (length suggestions * length all_criteria)%nat in
  engine_results out.1 = (engine_results self ++ res.1)%list ∧
  existing_functions_db out.1 = existing_functions_db self ∧
  out.2 = match res.2 with
          | Some e => inl (ValidationError_failed e)
          | None =>
              match suggestions with
              | [] => inl (ValidationError_failed (ValidationError_coverage 0))
              | _ => inr (_generate_comprehensive_report out.1 suggestions N N)
              end
          end.
Proof.
  intros Hlen. cbv zeta. unfold validate_comprehensive_coverage_with.
  rewrite (proj2 (Nat.eqb_eq _ _) Hlen). cbn [negb].
  destruct (suggestions_loop_spec ev Hind self specs suggestions specs self 0 0)
    as (H1 & H2 & H3); [done|done|done|].
  cbv zeta in H1, H2, H3.
  destruct (suggestions_loop ev self specs 0 suggestions 0) as [self' o].
  cbn [fst snd] in H1, H2, H3. subst o.
  destruct (eval_items _ _) as [rs [e|]]; cbn [fst snd] in *; [done|].
  destruct suggestions as [|s ss]; [by cbn|].
  rewrite Nat.add_0_l.
  set (N := (length (s :: ss) * length all_criteria)%nat).
  assert (0 < N)%nat as HN by (subst N; cbn; lia).
  rewrite report_coverage, (proj2 (Nat.ltb_lt 0 N) HN), (coverage_full N HN).
  done.
Qed.

(** *** Missing criterion methods *)

Lemma duplicate_check_criteria (self : Engine) s id :
  criteria (_validate_duplicate_check self s id) = DUPLICATE_CHECK.
Proof.
  unfold _validate_duplicate_check. by destruct (duplicate_scan _ _ _).
Qed.

(** C2. On every non-empty batch (with as many specs) the call raises
    ValidationError and returns no report: the fourth criterion of the
    first candidate dispatches to a method the class does not define,
    and the handler rewraps the AttributeError. *)
Theorem nonempty_batch_raises
    (self : Engine) (suggestions : list Suggestion)
    (specs : list ImplementationSpec)
    (Hne : suggestions ≠ [])
    (Hlen : length suggestions = length specs) :
  let out := validate_comprehensive_coverage self suggestions specs in
  out.2 = inl (ValidationError_failed
                 (AttributeError "_validate_implementation_complexity")) ∧
  (∃ e, out.2 = inl e ∧ is_ValidationError e = true) ∧
  (∀ report, out.2 ≠ inr report) ∧
  map criteria (drop (length (engine_results self)) (engine_results out.1))
    = [TECHNICAL_FEASIBILITY; DUPLICATE_CHECK; AEC_VALUE] ∧
  (∀ engine s sp id c,
     c ∈ [IMPLEMENTATION_COMPLEXITY; API_COMPATIBILITY; INNOVATION_SCORE;
          RESOURCE_REQUIREMENTS] →
     ∃ method, _validate_single_criterion engine s sp c id
               = inl (AttributeError method)).
Proof.
  cbv zeta. split; [|split; [|split; [|split]]]; cycle 4.
  { intros engine s sp id c Hc.
    repeat (apply elem_of_cons in Hc as [->|Hc]; [by eexists|]).
    by apply elem_of_nil in Hc. }
  all: destruct suggestions as [|s ss]; [done|];
    destruct specs as [|sp sps]; [done|];
    unfold validate_comprehensive_coverage, validate_comprehensive_coverage_with;
    rewrite (proj2 (Nat.eqb_eq _ _) Hlen); cbn [negb suggestions_loop];
    cbn [lookup list_lookup];
    cbn [all_criteria criteria_loop _validate_single_criterion fst snd].
  - done.
  - by eexists.
  - done.
  - cbn [record_result reset_tracker engine_results].
    rewrite <- !app_assoc, drop_app_length. cbn [app map].
    by rewrite duplicate_check_criteria.
Qed.

Lemma nonempty_batch_raises_witness :
  let out := validate_comprehensive_coverage __init__
               [filter_candidate; second_candidate] [sample_spec; sample_spec] in
  out.2 = inl (ValidationError_failed
                 (AttributeError "_validate_implementation_complexity")) ∧
  (∃ e, out.2 = inl e ∧ is_ValidationError e = true) ∧
  (∀ report, out.2 ≠ inr report) ∧
  map criteria (drop (length (engine_results __init__)) (engine_results out.1))
    = [TECHNICAL_FEASIBILITY; DUPLICATE_CHECK; AEC_VALUE] ∧
  (∀ engine s sp id c,
     c ∈ [IMPLEMENTATION_COMPLEXITY; API_COMPATIBILITY; INNOVATION_SCORE;
          RESOURCE_REQUIREMENTS] →
     ∃ method, _validate_single_criterion engine s sp c id
               = inl (AttributeError method)).
Proof.
  apply (nonempty_batch_raises __init__ [filter_candidate; second_candidate]
           [sample_spec; sample_spec]).
  - discriminate.
  - reflexivity.
Defined.

(** *** Coverage totality *)

(** C1, as stated, fails at N = 0: the report's coverage is computed as
    0.0 when no validation is required, the check [coverage < 1.0] then
    raises, and no report is returned. *)
Lemma empty_batch_raises :
  let out := validate_comprehensive_coverage __init__ [] [] in
  out = (__init__, inl (ValidationError_failed (ValidationError_coverage 0))) ∧
  ¬ ∃ report, out.2 = inr report ∧ (validation_coverage report == 1)%Q.
Proof. split; [reflexivity|]. intros (report & Hr & _). discriminate Hr. Qed.

Section TotalEvaluator.

Variable ev : Evaluator.
Hypothesis Hev : always_returns ev.

Lemma criteria_loop_total s sp id cs :
  ∀ self n, ∃ self',
    criteria_loop ev self s sp id n cs = (self', inr (n + length cs)%nat) ∧
    length (engine_results self')
      = (length (engine_results self) + length cs)%nat.
Proof.
  induction cs as [|c cs IH]; intros self n; cbn [criteria_loop].
  - exists self. split; [do 2 f_equal; cbn; lia|cbn; lia].
  - destruct (Hev self s sp c id) as [r ->].
    destruct (IH (record_result self id c r) (S n)) as (self' & -> & Hl).
    exists self'. split; [do 2 f_equal; cbn; lia|].
    rewrite Hl. cbn. rewrite length_app. cbn. lia.
Qed.

Lemma suggestions_loop_total specs_all suggestions :
  ∀ sps self i n,
    drop i specs_all = sps →
    length suggestions = length sps →
    ∃ self',
      suggestions_loop ev self specs_all i suggestions n
        = (self', inr (n + length suggestions * length all_criteria)%nat) ∧
      length (engine_results self')
        = (length (engine_results self)
           + length suggestions * length all_criteria)%nat.
Proof.
  induction suggestions as [|s ss IH]; intros sps self i n Hdrop Hlen;
    cbn [suggestions_loop].
  - exists self. split; [do 2 f_equal; cbn; lia|cbn; lia].
  - destruct sps as [|sp sps]; [done|].
    assert (specs_all !! i = Some sp) as ->.
    { rewrite <- (Nat.add_0_r i), <- lookup_drop, Hdrop. done. }
    assert (drop (S i) specs_all = sps) as Hdrop'.
    { replace (S i) with (i + 1)%nat by lia.
      by rewrite <- drop_drop, Hdrop. }
    set (id := default ("suggestion_" ++ pretty i) (sg_id s)).
    destruct (criteria_loop_total s sp id all_criteria (reset_tracker self id) n)
      as (self1 & -> & Hl1).
    destruct (IH sps self1 (S i) (n + length all_criteria)%nat Hdrop')
      as (self' & -> & Hl); [by inversion Hlen|].
    exists self'. split; [do 2 f_equal; cbn; lia|].
    rewrite Hl, Hl1. cbn. lia.
Qed.

Lemma validate_with_total (self : Engine) suggestions specs :
  length suggestions = length specs →
  suggestions ≠ [] →
  ∃ self',
    validate_comprehensive_coverage_with ev self suggestions specs
      = (self', inr (_generate_comprehensive_report self' suggestions
                       (length suggestions * length all_criteria)
                       (length suggestions * length all_criteria))) ∧
    length (engine_results self')
      = (length (engine_results self)
         + length suggestions * length all_criteria)%nat.
Proof.
  intros Hlen Hne. unfold validate_comprehensive_coverage_with.
  rewrite (proj2 (Nat.eqb_eq _ _) Hlen). cbn [negb].
  destruct (suggestions_loop_total specs suggestions specs self 0 0)
    as (self' & -> & Hl); [done|done|].
  exists self'. split; [|done]. rewrite Nat.add_0_l.
  set (N := (length suggestions * length all_criteria)%nat).
  assert (0 < N)%nat as HN.
  { subst N. destruct suggestions; [done|]. cbn. lia. }
  by rewrite report_coverage, (proj2 (Nat.ltb_lt 0 N) HN), (coverage_full N HN).
Qed.

End TotalEvaluator.

(** C1, amended. On a freshly constructed engine, with as many specs as
    suggestions and a criterion evaluation that returns a result for
    every criterion: a batch of N >= 1 suggestions yields a report with
    exactly N*7 results and coverage 1.0; the empty batch yields no
    report but a ValidationError, its coverage being computed as 0.0. *)
Theorem coverage_totality
    (ev : Evaluator) (Hev : always_returns ev)
    (suggestions : list Suggestion) (specs : list ImplementationSpec)
    (Hlen : length suggestions = length specs) :
  let out := validate_comprehensive_coverage_with ev __init__ suggestions specs in
  (suggestions ≠ [] →
   ∃ report,
     out.2 = inr report ∧
     length (validation_results report) = (length suggestions * 7)%nat ∧
     (validation_coverage report == 1)%Q ∧
     total_suggestions report = length suggestions) ∧
  (suggestions = [] →
   out.2 = inl (ValidationError_failed (ValidationError_coverage 0))).
Proof.
  cbv zeta. split.
  - intros Hne.
    destruct (validate_with_total ev Hev __init__ suggestions specs Hlen Hne)
      as (self' & -> & Hl).
    eexists. split; [done|]. cbn [snd]. split; [exact Hl|]. split; [|done].
    rewrite report_coverage.
    assert (0 < length suggestions * length all_criteria)%nat as HN.
    { destruct suggestions; [done|]. cbn. lia. }
    rewrite (proj2 (Nat.ltb_lt _ _) HN). by apply ratio_one.
  - intros ->. destruct specs; [|done]. reflexivity.
Qed.

Lemma mock_always_returns : always_returns mock_validate.
Proof. intros self s sp c id. by eexists. Qed.

Lemma coverage_totality_witness :
  let suggestions := [filter_candidate; second_candidate] in
  let out := validate_comprehensive_coverage_with mock_validate __init__
               suggestions [sample_spec; sample_spec] in
  (suggestions ≠ [] →
   ∃ report,
     out.2 = inr report ∧
     length (validation_results report) = (length suggestions * 7)%nat ∧
     (validation_coverage report == 1)%Q ∧
     total_suggestions report = length suggestions) ∧
  (suggestions = [] →
   out.2 = inl (ValidationError_failed (ValidationError_coverage 0))).
Proof.
  apply (coverage_totality mock_validate mock_always_returns
           [filter_candidate; second_candidate] [sample_spec; sample_spec]).
  reflexivity.
Defined.

(** *** An exception in one criterion *)

Lemma single_criterion_reads_only_db : reads_only_db _validate_single_criterion.
Proof.
  intros self self' s sp c id Hdb.
  destruct c; cbn [_validate_single_criterion]; try reflexivity.
  unfold _validate_duplicate_check. by rewrite Hdb.
Qed.

(** C7, as stated, fails: in a batch of two candidates the exception of
    the first candidate's fourth criterion ends the call with a
    ValidationError; the engine holds three results, none of them for
    the criterion that raised, and the second candidate is never
    evaluated. *)
Lemma criterion_exception_not_recorded :
  let out := validate_comprehensive_coverage __init__
               [filter_candidate; second_candidate] [sample_spec; sample_spec] in
  out.2 = inl (ValidationError_failed
                 (AttributeError "_validate_implementation_complexity")) ∧
  map (fun r => (suggestion_id r, criteria r, status r)) (engine_results out.1)
    = [ ("cand_1", TECHNICAL_FEASIBILITY, FAILED);
        ("cand_1", DUPLICATE_CHECK, PASSED);
        ("cand_1", AEC_VALUE, FAILED) ].
Proof. vm_compute. done. Qed.

(** C7, amended. When the evaluation of one (candidate, criterion) pair
    raises, the call raises ValidationError wrapping that exception: the
    engine has recorded the results of the pairs evaluated before it and
    nothing else; no result is recorded for the pair that raised and the
    remaining pairs are not evaluated. *)
Theorem criterion_exception_aborts_batch
    (ev : Evaluator) (Hind : reads_only_db ev)
    (self : Engine) (suggestions : list Suggestion)
    (specs : list ImplementationSpec)
    (before rest : list WorkItem) (w : WorkItem)
    (rs : list ValidationResult) (e : exn)
    (Hlen : length suggestions = length specs)
    (Hitems : work_items 0 suggestions specs = (before ++ w :: rest)%list)
    (Hbefore : Forall2 (fun w r => apply_item ev self w = inr r) before rs)
    (Hraise : apply_item ev self w = inl e) :
  let out := validate_comprehensive_coverage_with ev self suggestions specs in
  out.2 = inl (ValidationError_failed e) ∧
  engine_results out.1 = (engine_results self ++ rs)%list ∧
  length rs = length before.
Proof.
  cbv zeta.
  destruct (validate_with_spec ev Hind self suggestions specs Hlen)
    as (H1 & _ & H3).
  cbv zeta in H1, H3. rewrite Hitems in H1, H3.
  rewrite (eval_items_abort _ before rest w rs e Hbefore Hraise) in H1, H3.
  split; [exact H3|]. split; [exact H1|].
  symmetry. by eapply Forall2_length.
Qed.

Lemma criterion_exception_aborts_batch_witness :
  let suggestions := [filter_candidate; second_candidate] in
  let specs := [sample_spec; sample_spec] in
  let before :=
    [ (filter_candidate, sample_spec, "cand_1", TECHNICAL_FEASIBILITY);
      (filter_candidate, sample_spec, "cand_1", DUPLICATE_CHECK);
      (filter_candidate, sample_spec, "cand_1", AEC_VALUE) ] in
  let rs :=
    [ _validate_technical_feasibility __init__ filter_candidate sample_spec "cand_1";
      _validate_duplicate_check __init__ filter_candidate "cand_1";
      _validate_aec_value __init__ filter_candidate "cand_1" ] in
  let out := validate_comprehensive_coverage_with _validate_single_criterion
               __init__ suggestions specs in
  out.2 = inl (ValidationError_failed
                 (AttributeError "_validate_implementation_complexity")) ∧
  engine_results out.1 = (engine_results __init__ ++ rs)%list ∧
  length rs = length before.
Proof.
  apply (criterion_exception_aborts_batch _validate_single_criterion
           single_criterion_reads_only_db __init__
           [filter_candidate; second_candidate] [sample_spec; sample_spec]
           [ (filter_candidate, sample_spec, "cand_1", TECHNICAL_FEASIBILITY);
             (filter_candidate, sample_spec, "cand_1", DUPLICATE_CHECK);
             (filter_candidate, sample_spec, "cand_1", AEC_VALUE) ]
           (drop 4 (work_items 0 [filter_candidate; second_candidate]
                      [sample_spec; sample_spec]))
           (filter_candidate, sample_spec, "cand_1", IMPLEMENTATION_COMPLEXITY)).
  - reflexivity.
  - reflexivity.
  - repeat (constructor; [reflexivity|]). constructor.
  - reflexivity.
Defined.

(** *** Results accumulate across batches *)

Lemma count_status_app (st : ValidationStatus) (l1 l2 : list ValidationResult) :
  count_status st (l1 ++ l2) = (count_status st l1 + count_status st l2)%nat.
Proof. unfold count_status. by rewrite filter_app, length_app. Qed.

(** C10, as stated, fails: after a first batch of two candidates, the
    report of a one-candidate batch lists 21 results and counts 21
    passes, where a fresh engine reports 7 and 7 for the same batch. *)
Lemma later_batch_report_differs :
  let first := validate_comprehensive_coverage_with mock_validate __init__
                 [filter_candidate; second_candidate] [sample_spec; sample_spec] in
  let later := validate_comprehensive_coverage_with mock_validate first.1
                 [second_candidate] [sample_spec] in
  let fresh := validate_comprehensive_coverage_with mock_validate __init__
                 [second_candidate] [sample_spec] in
  later.2 ≠ fresh.2 ∧
  (∃ report report0,
     later.2 = inr report ∧ fresh.2 = inr report0 ∧
     length (validation_results report) = 21%nat ∧
     length (validation_results report0) = 7%nat ∧
     passed_suggestions report = 21%nat ∧
     passed_suggestions report0 = 7%nat).
Proof.
  cbv zeta. split.
  - intros Heq.
    apply (f_equal (fun o => match o with
                             | inr rep => length (validation_results rep)
                             | inl _ => 0%nat
                             end)) in Heq.
    vm_compute in Heq. discriminate Heq.
  - do 2 eexists. split; [reflexivity|]. split; [reflexivity|].
    vm_compute. done.
Qed.

(** C10, amended. The report's suggestion count and coverage depend only
    on the call's inputs, but its result list is the results the engine
    had accumulated before the call followed by those of this batch, and
    the status counts are taken over that whole list; on a fresh engine
    the report holds this batch's results alone. Whether the call raises,
    and with what, does not depend on earlier batches. *)
Theorem report_includes_earlier_results
    (ev : Evaluator) (Hind : reads_only_db ev)
    (self : Engine) (Hdb : existing_functions_db self = None)
    (suggestions : list Suggestion) (specs : list ImplementationSpec) :
  let out := validate_comprehensive_coverage_with ev self suggestions specs in
  let fresh := validate_comprehensive_coverage_with ev __init__ suggestions specs in
  engine_results out.1 = (engine_results self ++ engine_results fresh.1)%list ∧
  match out.2, fresh.2 with
  | inr report, inr report0 =>
      validation_results report
        = (engine_results self ++ validation_results report0)%list ∧
      total_suggestions report = total_suggestions report0 ∧
      validation_coverage report = validation_coverage report0 ∧
      passed_suggestions report
        = (count_status PASSED (engine_results self)
           + passed_suggestions report0)%nat ∧
      failed_suggestions report
        = (count_status FAILED (engine_results self)
           + failed_suggestions report0)%nat ∧
      overall_quality_score report
        = mean_score (engine_results self ++ validation_results report0)
  | inl e, inl e0 => e = e0
  | _, _ => False
  end.
Proof.
  cbv zeta.
  destruct (decide (length suggestions = length specs)) as [Hlen|Hlen].
  - destruct (validate_with_spec ev Hind self suggestions specs Hlen)
      as (H1 & _ & H3).
    destruct (validate_with_spec ev Hind __init__ suggestions specs Hlen)
      as (G1 & _ & G3).
    cbv zeta in H1, H3, G1, G3.
    assert (∀ w, apply_item ev self w = apply_item ev __init__ w) as Hext.
    { intros [[[s sp] id] c]. cbn. apply Hind. by rewrite Hdb. }
    rewrite (eval_items_ext _ _ _ Hext) in H1, H3.
    rewrite H3, G3, H1, G1. cbn [engine_results __init__ app].
    split; [done|].
    destruct (eval_items _ _) as [rs [e|]]; cbn [fst snd]; [done|].
    destruct suggestions as [|s ss]; [done|].
    cbn [validation_results total_suggestions validation_coverage
         passed_suggestions failed_suggestions overall_quality_score
         _generate_comprehensive_report].
    rewrite H1, G1. cbn [fst engine_results __init__ app].
    by rewrite !count_status_app.
  - unfold validate_comprehensive_coverage_with.
    rewrite (proj2 (Nat.eqb_neq _ _) Hlen). cbn. by rewrite app_nil_r.
Qed.

Lemma report_includes_earlier_results_witness :
  let self := (validate_comprehensive_coverage_with mock_validate __init__
                 [filter_candidate; second_candidate]
                 [sample_spec; sample_spec]).1 in
  let out := validate_comprehensive_coverage_with mock_validate self
               [second_candidate] [sample_spec] in
  let fresh := validate_comprehensive_coverage_with mock_validate __init__
                 [second_candidate] [sample_spec] in
  engine_results out.1 = (engine_results self ++ engine_results fresh.1)%list ∧
  match out.2, fresh.2 with
  | inr report, inr report0 =>
      validation_results report
        = (engine_results self ++ validation_results report0)%list ∧
      total_suggestions report = total_suggestions report0 ∧
      validation_coverage report = validation_coverage report0 ∧
      passed_suggestions report
        = (count_status PASSED (engine_results self)
           + passed_suggestions report0)%nat ∧
      failed_suggestions report
        = (count_status FAILED (engine_results self)
           + failed_suggestions report0)%nat ∧
      overall_quality_score report
        = mean_score (engine_results self ++ validation_results report0)
  | inl e, inl e0 => e = e0
  | _, _ => False
  end.
Proof.
  apply (report_includes_earlier_results mock_validate).
  - intros self self' s sp c id Hdb. reflexivity.
  - reflexivity.
Defined.


(** ** The lookup table of the capability mapper *)

Section LookupTable.

Import CapabilityMapper.

Lemma truthy_spec (s : string) : PyStr.truthy s = true ↔ s ≠ "".
Proof. destruct s; simpl; split; congruence. Qed.

Lemma db_get_app (db : LookupTable) k f key :
  db_get (db ++ [(k, f)]) key =
  match db_get db key with
  | Some g => Some g
  | None => if String.eqb k key then Some f else None
  end.
Proof.
  induction db as [|[k' f'] db IH]; simpl; [done|].
  destruct (String.eqb k' key); [done|]. apply IH.
Qed.

Lemma add_key_get (db : LookupTable) f k key :
  db_get (add_key f db k) key =
  match db_get db key with
  | Some g => Some g
  | None => if PyStr.truthy k && String.eqb k key then Some f else None
  end.
Proof.
  unfold add_key, db_mem.
  destruct (PyStr.truthy k); cbn [andb negb]; [|by destruct (db_get db key)].
  destruct (db_get db k) as [g|] eqn:Hk; cbn [negb].
  - destruct (db_get db key) as [h|] eqn:Hkey; [done|].
    destruct (String.eqb_spec k key) as [->|]; [congruence|done].
  - apply db_get_app.
Qed.

Lemma add_keys_get f (ks : list string) :
  ∀ (db : LookupTable) key,
    db_get (foldl (add_key f) db ks) key =
    match db_get db key with
    | Some g => Some g
    | None => if PyStr.truthy key && bool_decide (key ∈ ks) then Some f else None
    end.
Proof.
  induction ks as [|k ks IH]; intros db key; cbn [foldl].
  - destruct (db_get db key); [done|].
    rewrite bool_decide_eq_false_2 by apply not_elem_of_nil.
    by rewrite andb_false_r.
  - rewrite IH, add_key_get.
    destruct (db_get db key) as [g|]; [done|].
    destruct (String.eqb_spec k key) as [->|Hne].
    + destruct (PyStr.truthy key); cbn [andb]; [|done].
      rewrite bool_decide_eq_true_2; [done|]. apply list_elem_of_here.
    + rewrite andb_false_r.
      destruct (PyStr.truthy key); cbn [andb]; [|done].
      destruct (decide (key ∈ ks)) as [Hin|Hin].
      * rewrite !bool_decide_eq_true_2; [done| |done]. by apply list_elem_of_further.
      * rewrite !bool_decide_eq_false_2; [done| |done].
        intros [?|?]%elem_of_cons; congruence.
Qed.

Lemma first_generated_cons key f g fs :
  first_generated_by key f (g :: fs) ↔
  (g = f ∧ key ∈ lookup_keys f) ∨
  ((key ∉ lookup_keys g) ∧ first_generated_by key f fs).
Proof.
  split.
  - intros (pre & post & Heq & Hin & Hpre).
    destruct pre as [|h pre]; simplify_eq/=.
    + left. done.
    + right. split; [apply Hpre, list_elem_of_here|].
      exists pre, post. split; [done|]. split; [done|].
      intros g' Hg'. apply Hpre. by apply list_elem_of_further.
  - intros [[-> Hin]|[Hnot (pre & post & -> & Hin & Hpre)]].
    + exists [], fs. split; [done|]. split; [done|].
      intros g' Hg'. by apply elem_of_nil in Hg'.
    + exists (g :: pre), post. split; [done|]. split; [done|].
      intros g' [->|Hg']%elem_of_cons; auto.
Qed.

Lemma build_get (fs : list ExistingFunction) :
  ∀ (db : LookupTable) key f,
    db_get (foldl add_function db fs) key = Some f ↔
    db_get db key = Some f ∨
    (db_get db key = None ∧ key ≠ "" ∧ first_generated_by key f fs).
Proof.
  induction fs as [|g fs IH]; intros db key f; cbn [foldl].
  - split; [by left|]. intros [?|(_ & _ & pre & post & Heq & _)]; [done|].
    by destruct pre.
  - rewrite IH. unfold add_function. rewrite add_keys_get.
    rewrite first_generated_cons.
    destruct (db_get db key) as [h|] eqn:Hdb.
    { split; [intros [?|(? & _)]; [by left|done]|].
      intros [?|(? & _)]; [by left|done]. }
    destruct (PyStr.truthy key) eqn:Ht; cbn [andb].
    + apply truthy_spec in Ht.
      destruct (decide (key ∈ lookup_keys g)) as [Hin|Hin].
      * rewrite bool_decide_eq_true_2 by done. split.
        -- intros [[= ->]|(? & _)]; [|done]. right. split; [done|]. split; [done|].
           by left.
        -- intros [?|(_ & _ & [[-> _]|[? _]])]; [done| |done]. by left.
      * rewrite bool_decide_eq_false_2 by done. split.
        -- intros [?|(_ & ? & ?)]; [done|]. right. split; [done|]. split; [done|].
           by right.
        -- intros [?|(_ & ? & [[-> ?]|[_ ?]])]; [done|done|]. right. done.
    + assert (key = "") as -> by (destruct key; [done|discriminate]).
      split.
      * intros [?|(_ & ? & _)]; done.
      * intros [?|(_ & ? & _)]; done.
Qed.


(** C8, as stated, fails: of two entities with the same lowercase name
    (and module path) the second is the stored value of no key at all;
    the table holds two keys, both storing the first. *)
Lemma shadowed_entity_has_no_key :
  let db := (_build_duplicate_detection_database sample_mapper).2 in
  shadowed_fn ∈ existing_functions sample_mapper ∧
  PyStr.lower (name shadowed_fn) = PyStr.lower (name filter_fn) ∧
  db = [("filter", filter_fn); ("revitron.filter", filter_fn)] ∧
  (∀ key, db_get db key ≠ Some shadowed_fn).
Proof.
  cbv zeta. split; [apply list_elem_of_further, list_elem_of_here|].
  split; [reflexivity|]. split; [reflexivity|].
  intros key.
  change (_build_duplicate_detection_database sample_mapper).2
    with [("filter", filter_fn); ("revitron.filter", filter_fn)].
  cbn [db_get].
  destruct (String.eqb "filter" key); [unfold filter_fn, shadowed_fn; discriminate|].
  destruct (String.eqb "revitron.filter" key);
    [unfold filter_fn, shadowed_fn; discriminate|discriminate].
Qed.

(** C8, amended. After the build every key of the table stores the first
    entity of the list that generates it, and nothing else is a key: an
    entity is the stored value of exactly those non-empty keys of its
    own that no earlier entity generates; in particular of two distinct
    keys when it has two such keys. *)
Theorem lookup_table_first_writer_wins
    (self : Mapper) (key : string) (f : ExistingFunction) :
  let db := (_build_duplicate_detection_database self).2 in
  duplicate_detection_db (_build_duplicate_detection_database self).1 = db ∧
  (db_get db key = Some f ↔
   key ≠ "" ∧ first_generated_by key f (existing_functions self)) ∧
  (∀ key', key ≠ key' → key ≠ "" → key' ≠ "" →
     first_generated_by key f (existing_functions self) →
     first_generated_by key' f (existing_functions self) →
     db_get db key = Some f ∧ db_get db key' = Some f).
Proof.
  cbv zeta. unfold _build_duplicate_detection_database. cbn [fst snd duplicate_detection_db].
  split; [done|].
  assert (∀ k, db_get (foldl add_function [] (existing_functions self)) k = Some f ↔
               k ≠ "" ∧ first_generated_by k f (existing_functions self)) as Hget.
  { intros k. rewrite build_get. cbn [db_get]. split.
    - intros [?|(_ & ? & ?)]; done.
    - intros [? ?]. by right. }
  split; [apply Hget|].
  intros key' _ Hk Hk' Hf Hf'. split; apply Hget; done.
Qed.

(** ** Duplicate lookup *)

Lemma scan_database_elem n d (items : LookupTable) g :
  g ∈ scan_database n d items ↔
  ∃ key, (key, g) ∈ items ∧ entry_matches n d key g = true.
Proof.
  induction items as [|[k f] items IH]; cbn [scan_database].
  - split; [by intros ?%elem_of_nil|]. by intros (? & ?%elem_of_nil & _).
  - destruct (entry_matches n d k f) eqn:Hm.
    + rewrite elem_of_cons, IH. split.
      * intros [->|(key & Hin & Hk)].
        -- exists k. split; [apply list_elem_of_here|done].
        -- exists key. split; [by apply list_elem_of_further|done].
      * intros (key & [[= -> ->]|Hin]%elem_of_cons & Hk); [by left|].
        right. eauto.
    + rewrite IH. split.
      * intros (key & Hin & Hk). exists key.
        split; [by apply list_elem_of_further|done].
      * intros (key & [[= -> ->]|Hin]%elem_of_cons & Hk); [congruence|eauto].
Qed.

Lemma unique_by_name_subset (funcs : list ExistingFunction) :
  ∀ seen g, g ∈ unique_by_name seen funcs → g ∈ funcs.
Proof.
  induction funcs as [|h funcs IH]; intros seen g; cbn [unique_by_name]; [done|].
  case_bool_decide.
  - intros Hg. apply list_elem_of_further. by eapply IH.
  - intros [->|Hg]%elem_of_cons; [apply list_elem_of_here|].
    apply list_elem_of_further. by eapply IH.
Qed.

Lemma unique_by_name_complete (funcs : list ExistingFunction) :
  ∀ seen f, f ∈ funcs → name f ∉ seen →
    ∃ g, g ∈ unique_by_name seen funcs ∧ name g = name f.
Proof.
  induction funcs as [|h funcs IH]; intros seen f Hf Hseen;
    cbn [unique_by_name]; [by apply elem_of_nil in Hf|].
  apply elem_of_cons in Hf as [->|Hf].
  - rewrite bool_decide_eq_false_2 by done.
    exists h. split; [apply list_elem_of_here|done].
  - case_bool_decide as Hh.
    + by apply IH.
    + destruct (decide (name f = name h)) as [Heq|Hne].
      * exists h. split; [apply list_elem_of_here|done].
      * destruct (IH ({[name h]} ∪ seen) f Hf) as (g & Hg & Hn); [set_solver|].
        exists g. split; [by apply list_elem_of_further|done].
Qed.

Lemma Qlt_bool_true (a b : Q) : Qlt_bool a b = true ↔ (a < b)%Q.
Proof.
  unfold Qlt_bool. rewrite negb_true_iff. split.
  - intros Hb. apply Qnot_le_lt. intros Hle.
    apply Qle_bool_iff in Hle. congruence.
  - intros Hlt. destruct (Qle_bool b a) eqn:Hb; [|done].
    apply Qle_bool_iff in Hb. lra.
Qed.

(** C6, as stated, fails: the second entity of the sample catalogue has
    all its keys shadowed; its description matches the candidate's
    exactly (similarity 1.0 > 0.7), and yet the match list is empty. *)
Lemma shadowed_entity_not_scanned :
  let mapper := (_build_duplicate_detection_database sample_mapper).1 in
  let candidate_description := "Export schedule data" in
  shadowed_fn ∈ existing_functions mapper ∧
  (7 # 10 < CapabilityMapper._calculate_text_similarity
              (PyStr.lower candidate_description)
              (PyStr.lower (description shadowed_fn)))%Q ∧
  check_for_duplicates mapper "Schedule Exporter" candidate_description = [].
Proof.
  cbv zeta. split; [apply list_elem_of_further, list_elem_of_here|].
  split; [by vm_compute|]. by vm_compute.
Qed.

(** C6, amended. The description-similarity scan runs over the entries of
    the lookup table, not over the entity list: every returned entity is
    the stored value of some key (an entity whose keys were all shadowed
    is never returned), and for every table entry whose description has
    similarity above 0.7 with the candidate's, the result holds an entity
    of that name. *)
Theorem check_for_duplicates_scans_table
    (self : Mapper) (suggestion_name suggestion_description : string) :
  let result := check_for_duplicates self suggestion_name suggestion_description in
  (∀ g, g ∈ result → ∃ key, (key, g) ∈ duplicate_detection_db self) ∧
  (∀ key f,
     (key, f) ∈ duplicate_detection_db self →
     (7 # 10 < CapabilityMapper._calculate_text_similarity
                 (PyStr.lower suggestion_description)
                 (PyStr.lower (description f)))%Q →
     ∃ g, g ∈ result ∧ name g = name f).
Proof.
  cbv zeta. unfold check_for_duplicates. split.
  - intros g Hg%unique_by_name_subset.
    apply scan_database_elem in Hg as (key & Hin & _). eauto.
  - intros key f Hin Hsim.
    apply unique_by_name_complete; [|apply not_elem_of_empty].
    apply scan_database_elem. exists key. split; [done|].
    unfold entry_matches. destruct (_ || _); [done|].
    by apply Qlt_bool_true.
Qed.

End LookupTable.


(** * Further properties of the validation engine

    ** Text similarity *)

(** X1. The similarity is symmetric in its two texts and does not depend
    on their letter case. *)
Theorem text_similarity_symmetric (a b : string) :
  ValidationEngine._calculate_text_similarity a b
    = ValidationEngine._calculate_text_similarity b a ∧
  ValidationEngine._calculate_text_similarity (PyStr.lower a) (PyStr.lower b)
    = ValidationEngine._calculate_text_similarity a b.
Proof.
  split.
  - rewrite !similarity_cases.
    rewrite (bool_decide_ext (words a = ∅ ∨ words b = ∅)
               (words b = ∅ ∨ words a = ∅)) by tauto.
    replace (words b ∩ words a) with (words a ∩ words b)
      by (apply leibniz_equiv; set_solver).
    replace (words b ∪ words a) with (words a ∪ words b)
      by (apply leibniz_equiv; set_solver).
    done.
  - unfold ValidationEngine._calculate_text_similarity.
    by rewrite !words_lower.
Qed.

(** ** Technical feasibility *)


Lemma Qle_bool_false (a b : Q) : Qle_bool a b = false ↔ (b < a)%Q.
Proof.
  split.
  - intros Hb. apply Qnot_le_lt. intros Hle. apply Qle_bool_iff in Hle. congruence.
  - intros Hlt. destruct (Qle_bool a b) eqn:Hb; [|done].
    apply Qle_bool_iff in Hb. lra.
Qed.



Lemma Qlt_bool_min_one (x t : Q) :
  (t <= 1)%Q → Qlt_bool (Qmin 1 x) t = Qlt_bool x t.
Proof.
  intros Ht. apply eq_true_iff_eq. rewrite !Qlt_bool_true.
  destruct (Q.min_spec 1 x) as [[Hc Hm]|[Hc Hm]]; rewrite Hm; split; lra.
Qed.

Lemma Qlt_bool_ext (a b : Q) (P : Prop) `{!Decision P} :
  ((a < b)%Q ↔ P) → Qlt_bool a b = bool_decide P.
Proof.
  intros H. apply eq_true_iff_eq. by rewrite Qlt_bool_true, bool_decide_eq_true.
Qed.


(** ** Industry value *)

Lemma foldl_bonus_bounds {A} (P : A → bool) (q : Q) (l : list A) :
  (0 <= q)%Q →
  ∀ a, (a <= foldl (fun acc x => if P x then (acc + q)%Q else acc) a l
          <= a + q * inject_Z (Z.of_nat (length l)))%Q.
Proof.
  intros Hq. induction l as [|x l IH]; intros a; cbn [foldl length].
  - split; [apply Qle_refl|].
    change (inject_Z (Z.of_nat 0)) with 0%Q. lra.
  - rewrite Nat2Z.inj_succ, <- Z.add_1_r, inject_Z_plus.
    assert (0 <= inject_Z (Z.of_nat (length l)))%Q as Hlen.
    { change 0%Q with (inject_Z 0). rewrite <- Zle_Qle. lia. }
    destruct (P x).
    + destruct (IH (a + q)%Q) as [H1 H2]. split.
      * eapply Qle_trans; [|exact H1]. lra.
      * eapply Qle_trans; [exact H2|].
        change (inject_Z 1) with 1%Q. lra.
    + destruct (IH a) as [H1 H2]. split; [done|].
      eapply Qle_trans; [exact H2|].
      change (inject_Z 1) with 1%Q.
      assert (q * inject_Z (Z.of_nat (length l))
              <= q * (inject_Z (Z.of_nat (length l)) + 1))%Q; [|lra].
      rewrite Qmult_plus_distr_r. lra.
Qed.

Lemma count_present_ratio (ws : list string) (text : string) :
  (0 < length ws)%nat →
  (0 <= ratio (count_present ws text) (length ws) <= 1)%Q.
Proof.
  intros Hpos. apply ratio_bounds; [done|]. apply length_filter.
Qed.

(** X4. The industry-value score always lies in [0,1] and the status is
    PASSED exactly from 0.7 on; a suggestion with neither description
    nor category scores 0.0, FAILED, with both pieces of advice. *)
Theorem aec_value_score_bounds
    (self : Engine) (suggestion : Suggestion) (suggestion_id : string) :
  let r := _validate_aec_value self suggestion suggestion_id in
  (0 <= score r <= 1)%Q ∧
  (status r = PASSED ↔ (7 # 10 <= score r)%Q) ∧
  (status r = PASSED ∨ status r = FAILED) ∧
  (sg_description suggestion = None → sg_category suggestion = None →
   (score r == 0)%Q ∧ status r = FAILED ∧
   recommendations r = ["Clarify relevance to specific AEC workflows";
                        "Better articulate the problem this solves"]).
Proof.
  cbv zeta. split; [|split; [|split]].
  - unfold _validate_aec_value. cbn [score].
    set (d := PyStr.lower (default "" (sg_description suggestion))).
    set (c := PyStr.lower (default "" (sg_category suggestion))).
    pose proof (foldl_bonus_bounds
      (fun workflow => PyStr.contains (PyStr.replace_char "_" " " workflow) d
                       || PyStr.contains (PyStr.replace_char "_" " " workflow) c)
      (2 # 10) workflow_categories ltac:(by vm_compute) 0%Q) as [Hw0 Hw1].
    set (w := foldl _ 0%Q workflow_categories) in *.
    pose proof (count_present_ratio industry_keywords (PyStr.lower d)
                  ltac:(cbn; lia)) as [Hk0 Hk1].
    pose proof (count_present_ratio problem_indicators (PyStr.lower d)
                  ltac:(cbn; lia)) as [Hp0 Hp1].
    set (k := ratio _ (length industry_keywords)) in *.
    set (p := ratio _ (length problem_indicators)) in *.
    assert (0 <= (w + k + p) / 3)%Q as Hnonneg.
    { apply Qle_shift_div_l; [reflexivity|]. lra. }
    split; [|apply Q.le_min_l].
    apply Q.min_glb; [by vm_compute|done].
  - unfold _validate_aec_value. cbn [score status minimum_thresholds].
    destruct (Qle_bool (7 # 10) _) eqn:Hb.
    + by apply Qle_bool_iff in Hb.
    + split; [done|]. intros Hle. apply Qle_bool_iff in Hle. congruence.
  - unfold _validate_aec_value. cbn [status]. destruct (Qle_bool _ _); auto.
  - intros Hd Hc. unfold _validate_aec_value.
    rewrite Hd, Hc. by vm_compute.
Qed.

(** ** Duplicate check *)





Lemma max_similarity_nonneg (n d : string) (l : list ExistingFunc) :
  (0 <= match map (overall_similarity n d) l with
        | [] => 0
        | _ => Qmax_list (map (overall_similarity n d) l)
        end)%Q.
Proof.
  destruct (max_similarity_spec (map (overall_similarity n d) l)) as [_ Hatt].
  cbv zeta in Hatt. destruct Hatt as [[_ ->]|Hin]; [done|].
  apply list_elem_of_fmap in Hin as (e & -> & _).
  apply overall_similarity_bounds.
Qed.

(** X6. Enlarging the database never raises the duplicate-check score of
    a suggestion, and never turns a FAILED result into PASSED. *)
Theorem duplicate_check_antitone
    (self self' : Engine) (extra : list ExistingFunc)
    (suggestion : Suggestion) (suggestion_id : string)
    (Hext : default [] (existing_functions_db self')
            = (default [] (existing_functions_db self) ++ extra)%list) :
  let r := _validate_duplicate_check self suggestion suggestion_id in
  let r' := _validate_duplicate_check self' suggestion suggestion_id in
  (score r' <= score r)%Q ∧ (status r = FAILED → status r' = FAILED).
Proof.
  cbv zeta.
  destruct (duplicate_check_unfold self suggestion suggestion_id) as [Hs Hst].
  destruct (duplicate_check_unfold self' suggestion suggestion_id) as [Hs' Hst'].
  cbv zeta in Hs, Hst, Hs', Hst'. rewrite Hs, Hst, Hs', Hst', Hext.
  set (n := PyStr.lower (default "" (sg_name suggestion))).
  set (d := PyStr.lower (default "" (sg_description suggestion))).
  set (l := default [] (existing_functions_db self)).
  pose proof (max_similarity_nonneg n d l) as H0.
  pose proof (max_similarity_nonneg n d (l ++ extra)) as H0'.
  destruct (max_similarity_spec (map (overall_similarity n d) l)) as [_ Hatt].
  destruct (max_similarity_spec (map (overall_similarity n d) (l ++ extra)))
    as [Hub' _].
  cbv zeta in Hatt, Hub'.
  set (M := match map (overall_similarity n d) l with
            | [] => 0%Q | _ => Qmax_list (map (overall_similarity n d) l) end) in *.
  set (M' := match map (overall_similarity n d) (l ++ extra) with
             | [] => 0%Q
             | _ => Qmax_list (map (overall_similarity n d) (l ++ extra)) end) in *.
  assert (M <= M')%Q as HMM.
  { destruct Hatt as [[_ ->]|Hin]; [done|]. apply Hub'.
    rewrite map_app. apply elem_of_app. by left. }
  assert (Qmax 0 (1 - M') <= Qmax 0 (1 - M))%Q as Hle.
  { apply Q.max_le_compat_l. lra. }
  split; [done|].
  destruct (Qle_bool 1 (Qmax 0 (1 - M))) eqn:Hb; [done|]. intros _.
  apply Qle_bool_false in Hb.
  rewrite (proj2 (Qle_bool_false _ _)); [done|]. lra.
Qed.

Lemma duplicate_check_antitone_witness :
  let r := _validate_duplicate_check __init__ copy_candidate "cand_3" in
  let r' := _validate_duplicate_check (engine_with_db [filter_entity])
              copy_candidate "cand_3" in
  (score r' <= score r)%Q ∧ (status r = FAILED → status r' = FAILED).
Proof.
  apply (duplicate_check_antitone __init__ (engine_with_db [filter_entity])
           [filter_entity] copy_candidate "cand_3").
  reflexivity.
Defined.


(** ** The public method on the class as written *)

(** X7. With the class's own criterion dispatch the public method never
    returns a report: on every engine state and every pair of lists the
    call ends in a ValidationError (count mismatch, zero coverage of the
    empty batch, or the rewrapped missing method). *)
Theorem validate_never_returns
    (self : Engine) (suggestions : list Suggestion)
    (specs : list ImplementationSpec) :
  ∃ e, (validate_comprehensive_coverage self suggestions specs).2 = inl e ∧
       is_ValidationError e = true ∧
       (e = ValidationError_mismatch ↔ length suggestions ≠ length specs).
Proof.
  unfold validate_comprehensive_coverage, validate_comprehensive_coverage_with.
  destruct (decide (length suggestions = length specs)) as [Hlen|Hlen].
  - rewrite (proj2 (Nat.eqb_eq _ _) Hlen). cbn [negb].
    destruct suggestions as [|s ss].
    + destruct specs; [|done]. eexists. split; [reflexivity|].
      split; [done|]. split; [discriminate|done].
    + destruct specs as [|sp sps]; [done|].
      cbn [suggestions_loop lookup list_lookup].
      cbn [all_criteria criteria_loop _validate_single_criterion fst snd].
      eexists. split; [reflexivity|]. split; [done|]. split; [discriminate|done].
  - rewrite (proj2 (Nat.eqb_neq _ _) Hlen). cbn [negb snd].
    eexists. split; [reflexivity|]. done.
Qed.

(** ** What a call does to the engine *)

Section AnyEvaluator.

Variable ev : Evaluator.

Lemma criteria_loop_appends s sp id cs :
  ∀ self n, ∃ rs,
    engine_results (criteria_loop ev self s sp id n cs).1
      = (engine_results self ++ rs)%list ∧
    (length rs ≤ length cs)%nat ∧
    (∀ m, (criteria_loop ev self s sp id n cs).2 = inr m →
          length rs = length cs ∧ m = (n + length cs)%nat).
Proof.
  induction cs as [|c cs IH]; intros self n; cbn [criteria_loop].
  - exists []. rewrite app_nil_r. split; [done|]. split; [done|].
    intros m [= <-]. cbn. split; [done|lia].
  - destruct (ev self s sp c id) as [e|r].
    + exists []. rewrite app_nil_r. split; [done|]. split; [cbn; lia|done].
    + destruct (IH (record_result self id c r) (S n)) as (rs & H1 & H2 & H3).
      exists (r :: rs). split; [|split].
      * rewrite H1. cbn. by rewrite <- app_assoc.
      * cbn. lia.
      * intros m Hm. destruct (H3 m Hm) as [Hl ->]. cbn. split; lia.
Qed.

Lemma suggestions_loop_appends specs suggestions :
  ∀ self i n, ∃ rs,
    engine_results (suggestions_loop ev self specs i suggestions n).1
      = (engine_results self ++ rs)%list ∧
    (length rs ≤ length suggestions * length all_criteria)%nat ∧
    (∀ m, (suggestions_loop ev self specs i suggestions n).2 = inr m →
          length rs = (length suggestions * length all_criteria)%nat ∧
          m = (n + length suggestions * length all_criteria)%nat).
Proof.
  induction suggestions as [|s ss IH]; intros self i n; cbn [suggestions_loop].
  - exists []. rewrite app_nil_r. split; [done|]. split; [done|].
    intros m [= <-]. cbn. split; [done|lia].
  - destruct (specs !! i) as [sp|].
    2:{ exists []. rewrite app_nil_r. split; [done|]. split; [cbn; lia|done]. }
    set (id := default ("suggestion_" ++ pretty i) (sg_id s)).
    destruct (criteria_loop_appends s sp id all_criteria (reset_tracker self id) n)
      as (rs1 & H1 & H2 & H3).
    destruct (criteria_loop ev (reset_tracker self id) s sp id n all_criteria)
      as [self1 [e|m1]]; cbn [fst snd] in *.
    + exists rs1. split; [done|]. split; [cbn [length]; lia|done].
    + destruct (H3 m1 eq_refl) as [Hl1 ->].
      destruct (IH self1 (S i) (n + length all_criteria)%nat) as (rs2 & G1 & G2 & G3).
      exists (rs1 ++ rs2)%list. split; [|split].
      * rewrite G1, H1. cbn. by rewrite <- app_assoc.
      * rewrite length_app. cbn [length]. lia.
      * intros m Hm. destruct (G3 m Hm) as [Hl2 ->].
        rewrite length_app. cbn [length]. lia.
Qed.

Lemma validate_with_appends (self : Engine) suggestions specs :
  ∃ rs,
    engine_results
      (validate_comprehensive_coverage_with ev self suggestions specs).1
      = (engine_results self ++ rs)%list ∧
    (length rs ≤ length suggestions * 7)%nat ∧
    (∀ report,
       (validate_comprehensive_coverage_with ev self suggestions specs).2
         = inr report →
       length rs = (length suggestions * 7)%nat ∧
       validation_results report = (engine_results self ++ rs)%list ∧
       report = _generate_comprehensive_report
                  (validate_comprehensive_coverage_with ev self suggestions specs).1
                  suggestions (length suggestions * 7) (length suggestions * 7)).
Proof.
  unfold validate_comprehensive_coverage_with.
  destruct (negb _).
  { exists []. rewrite app_nil_r. split; [done|]. split; [cbn; lia|done]. }
  destruct (suggestions_loop_appends specs suggestions self 0 0)
    as (rs & H1 & H2 & H3).
  destruct (suggestions_loop ev self specs 0 suggestions 0) as [self' [e|m]];
    cbn [fst snd] in *.
  { exists rs. split; [done|]. split; [exact H2|done]. }
  destruct (H3 m eq_refl) as [Hl ->]. cbn [length all_criteria] in *.
  exists rs. destruct (Qlt_bool _ _); cbn [fst snd].
  - split; [done|]. split; [lia|done].
  - split; [done|]. split; [lia|]. intros report [= <-].
    split; [done|]. split; [exact H1|]. done.
Qed.

End AnyEvaluator.

(** X8. Whatever the criterion evaluation does, a call only appends to
    the engine's result list: the earlier results stay in place, at most
    N*7 are added, the database attribute is untouched, and a returned
    report carries exactly the earlier results followed by N*7 new
    ones. *)
Theorem results_append_only
    (ev : Evaluator) (self : Engine) (suggestions : list Suggestion)
    (specs : list ImplementationSpec) :
  let out := validate_comprehensive_coverage_with ev self suggestions specs in
  ∃ rs,
    engine_results out.1 = (engine_results self ++ rs)%list ∧
    (length rs ≤ length suggestions * 7)%nat ∧
    existing_functions_db out.1 = existing_functions_db self ∧
    (∀ report, out.2 = inr report →
       length rs = (length suggestions * 7)%nat ∧
       validation_results report = (engine_results self ++ rs)%list).
Proof.
  cbv zeta.
  destruct (validate_with_appends ev self suggestions specs) as (rs & H1 & H2 & H3).
  exists rs. split; [done|]. split; [done|]. split; [apply validate_with_db|].
  intros report Hr. destruct (H3 report Hr) as (? & ? & _). done.
Qed.

(** ** The coverage tracker *)

Lemma dict_add_set (t : list (string * gset ValidationCriteria)) id s c :
  dict_add (dict_set t id s) id c = dict_set t id ({[ c ]} ∪ s).
Proof.
  induction t as [|[k v] t IH]; cbn [dict_set dict_add].
  - by rewrite String.eqb_refl.
  - destruct (String.eqb k id) eqn:Hk; cbn [dict_add]; rewrite Hk; [done|].
    by rewrite IH.
Qed.

Lemma foldl_dict_add_set (t : list (string * gset ValidationCriteria)) id cs :
  ∀ s, foldl (fun t c => dict_add t id c) (dict_set t id s) cs
       = dict_set t id (foldl (fun s c => {[ c ]} ∪ s) s cs).
Proof.
  induction cs as [|c cs IH]; intros s; cbn [foldl]; [done|].
  by rewrite dict_add_set, IH.
Qed.

Lemma all_criteria_collected :
  foldl (fun (s : gset ValidationCriteria) c => {[ c ]} ∪ s) ∅ all_criteria
  = list_to_set all_criteria.
Proof. apply leibniz_equiv. cbn. set_solver. Qed.

Lemma dict_set_complete (t : list (string * gset ValidationCriteria)) id :
  tracker_complete t →
  tracker_complete (dict_set t id (list_to_set all_criteria)) ∧
  (length (dict_set t id (list_to_set all_criteria)) ≤ S (length t))%nat ∧
  id ∈ map fst (dict_set t id (list_to_set all_criteria)).
Proof.
  unfold tracker_complete.
  induction t as [|[k v] t IH]; intros Hc; cbn [dict_set].
  - split; [by repeat constructor|]. split; [cbn [length]; lia|].
    cbn [map fst]. apply list_elem_of_here.
  - apply Forall_cons in Hc as [Hkv Ht].
    destruct (String.eqb_spec k id) as [->|Hne].
    + split; [by constructor|]. split; [cbn [length]; lia|].
      cbn [map fst]. apply list_elem_of_here.
    + destruct (IH Ht) as (H1 & H2 & H3).
      split; [by constructor|]. split; [cbn [length]; lia|].
      cbn [map fst]. by apply list_elem_of_further.
Qed.

Lemma tracker_complete_filter (t : list (string * gset ValidationCriteria)) :
  tracker_complete t →
  filter (fun kv => kv.2 ≠ list_to_set all_criteria) t = [] ∧
  filter (fun kv => kv.2 = list_to_set all_criteria) t = t.
Proof.
  induction 1 as [|kv t Hkv _ [IH1 IH2]]; [done|].
  rewrite !filter_cons. split.
  - case_decide; [congruence|exact IH1].
  - case_decide; [|congruence]. by rewrite IH2.
Qed.

Section TrackerAnyEvaluator.

Variable ev : Evaluator.

Lemma criteria_loop_tracker s sp id cs :
  ∀ self n self' m,
    criteria_loop ev self s sp id n cs = (self', inr m) →
    coverage_tracker self'
    = foldl (fun t c => dict_add t id c) (coverage_tracker self) cs.
Proof.
  induction cs as [|c cs IH]; intros self n self' m; cbn [criteria_loop foldl].
  - by intros [= <- _].
  - destruct (ev self s sp c id) as [e|r]; [done|].
    intros Hloop. by rewrite (IH _ _ _ _ Hloop).
Qed.

Lemma suggestions_loop_tracker specs suggestions :
  ∀ self i n self' m,
    suggestions_loop ev self specs i suggestions n = (self', inr m) →
    tracker_complete (coverage_tracker self) →
    tracker_complete (coverage_tracker self') ∧
    (length (coverage_tracker self')
     ≤ length (coverage_tracker self) + length suggestions)%nat.
Proof.
  induction suggestions as [|s ss IH]; intros self i n self' m;
    cbn [suggestions_loop].
  - intros [= <- _] Hc. split; [done|lia].
  - destruct (specs !! i) as [sp|]; [|done].
    set (id := default ("suggestion_" ++ pretty i) (sg_id s)).
    destruct (criteria_loop ev (reset_tracker self id) s sp id n all_criteria)
      as [self1 [e|m1]] eqn:Hcl; [done|].
    intros Hloop Hc.
    apply criteria_loop_tracker in Hcl. cbn [reset_tracker coverage_tracker] in Hcl.
    rewrite foldl_dict_add_set, all_criteria_collected in Hcl.
    destruct (dict_set_complete (coverage_tracker self) id Hc) as (H1 & H2 & _).
    rewrite <- Hcl in H1, H2.
    destruct (IH self1 (S i) m1 self' m Hloop H1) as [G1 G2].
    split; [done|]. cbn [length]. lia.
Qed.

End TrackerAnyEvaluator.

(** X9. When a call on an engine whose tracked suggestions are all
    complete (a fresh engine has none) returns a report, the coverage
    verification finds nothing incomplete: every tracked suggestion has
    all seven criteria, and no more suggestions are tracked than were
    there before plus the batch size. *)
Theorem coverage_verification_complete
    (ev : Evaluator) (self : Engine) (suggestions : list Suggestion)
    (specs : list ImplementationSpec) (report : ComprehensiveValidationReport)
    (Hbefore : tracker_complete (coverage_tracker self))
    (Hreturn : (validate_comprehensive_coverage_with ev self suggestions specs).2
               = inr report) :
  let summary :=
    _verify_coverage_completeness
      (validate_comprehensive_coverage_with ev self suggestions specs).1 in
  incomplete_suggestions summary = [] ∧
  missing_criteria summary = [] ∧
  complete_coverage_count summary = cs_total_suggestions summary ∧
  (cs_total_suggestions summary
   ≤ length (coverage_tracker self) + length suggestions)%nat.
Proof.
  cbv zeta. revert Hreturn. unfold validate_comprehensive_coverage_with.
  destruct (negb _); [done|].
  destruct (suggestions_loop ev self specs 0 suggestions 0) as [self' [e|m]] eqn:Hl;
    [done|].
  destruct (suggestions_loop_tracker ev specs suggestions self 0 0 self' m Hl Hbefore)
    as [Hc Hlen].
  intros Hreturn.
  assert ((if Qlt_bool
                (validation_coverage
                   (_generate_comprehensive_report self' suggestions m
                      (length suggestions * length all_criteria))) 1
           then (self', inl (ValidationError_failed
                               (ValidationError_coverage
                                  (validation_coverage
                                     (_generate_comprehensive_report self' suggestions m
                                        (length suggestions * length all_criteria))))))
           else (self', inr (_generate_comprehensive_report self' suggestions m
                               (length suggestions * length all_criteria)))).1
          = self') as -> by (by destruct (Qlt_bool _ _)).
  unfold _verify_coverage_completeness.
  cbn [incomplete_suggestions missing_criteria complete_coverage_count
       cs_total_suggestions].
  rewrite (proj1 (tracker_complete_filter _ Hc)), (proj2 (tracker_complete_filter _ Hc)).
  done.
Qed.

Lemma coverage_verification_complete_witness :
  let out := validate_comprehensive_coverage_with mock_validate __init__
               [filter_candidate; second_candidate] [sample_spec; sample_spec] in
  let summary := _verify_coverage_completeness out.1 in
  incomplete_suggestions summary = [] ∧
  missing_criteria summary = [] ∧
  complete_coverage_count summary = cs_total_suggestions summary ∧
  (cs_total_suggestions summary
   ≤ length (coverage_tracker __init__)
     + length [filter_candidate; second_candidate])%nat.
Proof.
  eapply (coverage_verification_complete mock_validate __init__
            [filter_candidate; second_candidate] [sample_spec; sample_spec]).
  - constructor.
  - reflexivity.
Defined.

(** ** The report *)

Lemma count_status_partition (l : list ValidationResult) :
  (count_status PASSED l + count_status FAILED l
   + count_status REQUIRES_REVIEW l + count_status PENDING l)%nat = length l.
Proof.
  unfold count_status. induction l as [|r l IH]; [done|].
  rewrite !filter_cons. cbn [length].
  destruct (status r); repeat case_decide; try congruence; cbn [length]; lia.
Qed.

(** X10. The status counts of a report count criterion results, not
    suggestions: on a fresh engine the passed, failed, review and
    pending results of a returned report add up to seven times
    [total_suggestions]. *)
Theorem report_counts_are_per_result
    (ev : Evaluator) (self : Engine) (suggestions : list Suggestion)
    (specs : list ImplementationSpec) (report : ComprehensiveValidationReport)
    (Hfresh : engine_results self = [])
    (Hreturn : (validate_comprehensive_coverage_with ev self suggestions specs).2
               = inr report) :
  (passed_suggestions report + failed_suggestions report
   + requires_review report
   + count_status PENDING (validation_results report))%nat
  = (7 * total_suggestions report)%nat ∧
  total_suggestions report = length suggestions.
Proof.
  destruct (validate_with_appends ev self suggestions specs) as (rs & H1 & _ & H3).
  destruct (H3 report Hreturn) as (Hlen & Hres & Hrep).
  rewrite Hfresh in Hres. cbn [app] in Hres.
  rewrite Hrep at 1 2 3 5 6.
  cbn [passed_suggestions failed_suggestions requires_review total_suggestions
       _generate_comprehensive_report].
  rewrite Hres. rewrite Hrep in Hres. cbn [validation_results
    _generate_comprehensive_report] in Hres. rewrite Hres.
  rewrite count_status_partition. split; [lia|done].
Qed.

Lemma report_counts_are_per_result_witness :
  let out := validate_comprehensive_coverage_with mock_validate __init__
               [filter_candidate; second_candidate] [sample_spec; sample_spec] in
  let report := _generate_comprehensive_report out.1
                  [filter_candidate; second_candidate] 14 14 in
  (passed_suggestions report + failed_suggestions report
   + requires_review report
   + count_status PENDING (validation_results report))%nat
  = (7 * total_suggestions report)%nat ∧
  total_suggestions report = length [filter_candidate; second_candidate].
Proof.
  apply (report_counts_are_per_result mock_validate __init__
           [filter_candidate; second_candidate] [sample_spec; sample_spec]).
  - reflexivity.
  - reflexivity.
Defined.

Lemma foldl_Qplus_bounds (l : list Q) :
  Forall (fun x => 0 <= x <= 1)%Q l →
  ∀ a, (a <= foldl Qplus a l <= a + inject_Z (Z.of_nat (length l)))%Q.
Proof.
  induction 1 as [|x l [Hx0 Hx1] _ IH]; intros a; cbn [foldl length].
  - change (inject_Z (Z.of_nat 0)) with 0%Q. split; lra.
  - rewrite Nat2Z.inj_succ, <- Z.add_1_r, inject_Z_plus.
    change (inject_Z 1) with 1%Q.
    destruct (IH (a + x)%Q) as [H1 H2]. split.
    + eapply Qle_trans; [|exact H1]. lra.
    + eapply Qle_trans; [exact H2|]. lra.
Qed.

Lemma mean_score_unit (l : list ValidationResult) :
  Forall (fun r => 0 <= score r <= 1)%Q l →
  (0 <= mean_score l <= 1)%Q.
Proof.
  intros Hl. destruct l as [|r l]; [split; by vm_compute|].
  unfold mean_score, Qsum.
  assert (Forall (fun x => 0 <= x <= 1)%Q (map score (r :: l))) as Hm.
  { apply Forall_fmap. exact Hl. }
  destruct (foldl_Qplus_bounds _ Hm 0%Q) as [H0 H1].
  rewrite length_map in H1.
  set (S := foldl Qplus 0%Q (map score (r :: l))) in *.
  set (n := inject_Z (Z.of_nat (length (r :: l)))) in *.
  assert (0 < n)%Q as Hn.
  { subst n. change 0%Q with (inject_Z 0). rewrite <- Zlt_Qlt. cbn [length]. lia. }
  split.
  - apply Qle_shift_div_l; [done|]. lra.
  - apply Qle_shift_div_r; [done|]. lra.
Qed.

(** X11. When every recorded score lies in [0,1], so do the report's
    overall quality score and each per-criterion average; with no
    results at all the overall score is 0.0 and there is no average. *)
Theorem report_scores_within_unit
    (self : Engine) (suggestions : list Suggestion) (completed required : nat)
    (Hscores : Forall (fun r => 0 <= score r <= 1)%Q (engine_results self)) :
  let report :=
    _generate_comprehensive_report self suggestions completed required in
  (0 <= overall_quality_score report <= 1)%Q ∧
  Forall (fun kv => 0 <= kv.2 <= 1)%Q (summary_metrics report) ∧
  (engine_results self = [] →
   overall_quality_score report = 0%Q ∧ summary_metrics report = []).
Proof.
  cbv zeta. cbn [overall_quality_score summary_metrics _generate_comprehensive_report].
  split; [by apply mean_score_unit|]. split.
  - apply Forall_forall. intros kv Hin.
    apply list_elem_of_In, in_flat_map in Hin as (c & _ & Hin).
    destruct (filter (fun r => criteria r = c) (engine_results self))
      as [|r rs] eqn:Hf; [done|].
    apply list_elem_of_In, list_elem_of_singleton in Hin as ->. cbn [snd].
    apply mean_score_unit. rewrite <- Hf.
    apply Forall_forall. intros x [_ Hx]%list_elem_of_filter.
    revert x Hx. by apply Forall_forall.
  - intros ->. done.
Qed.

Lemma report_scores_within_unit_witness :
  let self := (validate_comprehensive_coverage_with mock_validate __init__
                 [filter_candidate] [sample_spec]).1 in
  let report := _generate_comprehensive_report self [filter_candidate] 7 7 in
  (0 <= overall_quality_score report <= 1)%Q ∧
  Forall (fun kv => 0 <= kv.2 <= 1)%Q (summary_metrics report) ∧
  (engine_results self = [] →
   overall_quality_score report = 0%Q ∧ summary_metrics report = []).
Proof.
  apply (report_scores_within_unit
           (validate_comprehensive_coverage_with mock_validate __init__
              [filter_candidate] [sample_spec]).1 [filter_candidate] 7 7).
  repeat (constructor; [split; discriminate|]). constructor.
Defined.

(** * Further properties of the capability mapper *)

Section MapperTable.

Import CapabilityMapper.

Lemma db_get_None (db : LookupTable) key :
  db_get db key = None ↔ key ∉ map fst db.
Proof.
  induction db as [|[k f] db IH]; cbn [db_get map fst].
  - split; [intros _; apply not_elem_of_nil|done].
  - destruct (String.eqb_spec k key) as [->|Hne].
    + split; [done|]. intros Hn. exfalso. apply Hn, list_elem_of_here.
    + rewrite IH. split.
      * intros Hn [?|?]%elem_of_cons; [congruence|done].
      * intros Hn Hin. apply Hn. by apply list_elem_of_further.
Qed.

Lemma db_get_Some_in (db : LookupTable) key f :
  db_get db key = Some f → (key, f) ∈ db.
Proof.
  induction db as [|[k g] db IH]; cbn [db_get]; [done|].
  destruct (String.eqb_spec k key) as [->|Hne].
  - intros [= ->]. apply list_elem_of_here.
  - intros H. apply list_elem_of_further. by apply IH.
Qed.

Lemma db_get_in (db : LookupTable) key f :
  NoDup (map fst db) → (key, f) ∈ db → db_get db key = Some f.
Proof.
  induction db as [|[k g] db IH]; cbn [db_get map fst].
  - by intros _ ?%elem_of_nil.
  - intros [Hk Hnd]%NoDup_cons [[= -> ->]|Hin]%elem_of_cons.
    + by rewrite String.eqb_refl.
    + destruct (String.eqb_spec k key) as [->|Hne]; [|by apply IH].
      exfalso. apply Hk. apply list_elem_of_fmap. by exists (key, f).
Qed.

Lemma add_key_ok F db f k :
  f ∈ F → k ∈ lookup_keys f → table_ok F db →
  table_ok F (add_key f db k) ∧
  (length (add_key f db k) ≤ S (length db))%nat.
Proof.
  intros Hf Hk [Hnd Hent]. unfold add_key, db_mem.
  destruct (PyStr.truthy k) eqn:Ht; cbn [andb]; [|split; [done|lia]].
  destruct (db_get db k) as [g|] eqn:Hg; cbn [negb]; [split; [done|lia]|].
  split; [|rewrite length_app; cbn; lia].
  split.
  - rewrite map_app. cbn [map fst]. apply NoDup_app. split; [done|].
    split; [|apply NoDup_singleton].
    intros x Hx ->%list_elem_of_singleton. by apply db_get_None in Hg.
  - intros k' g' [Hin|[= -> ->]%list_elem_of_singleton]%elem_of_app; [by apply Hent|].
    split; [by apply truthy_spec|done].
Qed.

Lemma add_keys_ok F f (ks : list string) :
  f ∈ F → (∀ k, k ∈ ks → k ∈ lookup_keys f) →
  ∀ db, table_ok F db →
    table_ok F (foldl (add_key f) db ks) ∧
    (length (foldl (add_key f) db ks) ≤ length db + length ks)%nat.
Proof.
  intros Hf. induction ks as [|k ks IH]; intros Hks db Hok; cbn [foldl length].
  - split; [done|lia].
  - destruct (add_key_ok F db f k Hf) as [H1 H2]; [apply Hks, list_elem_of_here|done|].
    destruct (IH (fun k' Hk' => Hks k' (list_elem_of_further _ _ _ Hk'))
                (add_key f db k) H1) as [G1 G2].
    split; [done|lia].
Qed.

Lemma build_ok F (fs : list ExistingFunction) :
  (∀ f, f ∈ fs → f ∈ F) →
  ∀ db, table_ok F db →
    table_ok F (foldl add_function db fs) ∧
    (length (foldl add_function db fs) ≤ length db + 4 * length fs)%nat.
Proof.
  induction fs as [|f fs IH]; intros Hfs db Hok; cbn [foldl length].
  - split; [done|lia].
  - destruct (add_keys_ok F f (lookup_keys f)) with (db := db) as [H1 H2];
      [apply Hfs, list_elem_of_here|done|done|].
    destruct (IH (fun g Hg => Hfs g (list_elem_of_further _ _ _ Hg))
                (add_function db f) H1) as [G1 G2].
    split; [done|]. unfold add_function in G2 |- *. cbn [lookup_keys length] in H2. lia.
Qed.

(** X12. The lookup table built from any entity list has pairwise
    distinct, non-empty keys; every entry stores an entity of the list
    under one of that entity's own keys; there are at most four entries
    per entity; and looking a key up returns exactly the stored entry. *)
Theorem lookup_table_well_formed (self : Mapper) :
  let db := (_build_duplicate_detection_database self).2 in
  NoDup (map fst db) ∧
  (∀ k g, (k, g) ∈ db →
     k ≠ "" ∧ g ∈ existing_functions self ∧ k ∈ lookup_keys g) ∧
  (length db ≤ 4 * length (existing_functions self))%nat ∧
  (∀ k g, (k, g) ∈ db ↔ db_get db k = Some g).
Proof.
  cbv zeta. unfold _build_duplicate_detection_database. cbn [snd].
  destruct (build_ok (existing_functions self) (existing_functions self)
              (fun f Hf => Hf) []) as [[Hnd Hent] Hlen].
  { split; [constructor|]. by intros k g ?%elem_of_nil. }
  split; [done|]. split; [done|]. split; [cbn [length] in Hlen; lia|].
  intros k g. split; [by apply db_get_in|apply db_get_Some_in].
Qed.


Lemma scan_database_sublist n d (items : LookupTable) :
  scan_database n d items `sublist_of` map snd items.
Proof.
  induction items as [|[k f] items IH]; cbn [scan_database map snd]; [done|].
  destruct (entry_matches n d k f); [by apply sublist_skip|by apply sublist_cons].
Qed.

Lemma unique_by_name_sublist (funcs : list ExistingFunction) :
  ∀ seen, unique_by_name seen funcs `sublist_of` funcs.
Proof.
  induction funcs as [|h funcs IH]; intros seen; cbn [unique_by_name]; [done|].
  case_bool_decide; [by apply sublist_cons|by apply sublist_skip].
Qed.

Lemma unique_by_name_fresh (funcs : list ExistingFunction) :
  ∀ seen,
    NoDup (map name (unique_by_name seen funcs)) ∧
    ∀ g, g ∈ unique_by_name seen funcs → name g ∉ seen.
Proof.
  induction funcs as [|h funcs IH]; intros seen; cbn [unique_by_name].
  - split; [constructor|]. by intros g ?%elem_of_nil.
  - case_bool_decide as Hh; [apply IH|].
    destruct (IH ({[name h]} ∪ seen)) as [Hnd Hfresh].
    split.
    + cbn [map]. apply NoDup_cons. split; [|done].
      intros (g & Hn & Hg)%list_elem_of_fmap.
      apply Hfresh in Hg. set_solver.
    + intros g [->|Hg]%elem_of_cons; [done|].
      apply Hfresh in Hg. set_solver.
Qed.

(** X13. The match list never names an entity twice, and it lists table
    entities in table order (it is a subsequence of the table's
    values). *)
Theorem duplicates_have_distinct_names
    (self : Mapper) (suggestion_name suggestion_description : string) :
  let result := check_for_duplicates self suggestion_name suggestion_description in
  NoDup (map name result) ∧
  result `sublist_of` map snd (duplicate_detection_db self).
Proof.
  cbv zeta. unfold check_for_duplicates. split.
  - apply unique_by_name_fresh.
  - etrans; [apply unique_by_name_sublist|apply scan_database_sublist].
Qed.

Lemma contains_empty (s : string) : PyStr.contains "" s = true.
Proof. by destruct s. Qed.

Lemma prefix_refl (s : string) : String.prefix s s = true.
Proof.
  induction s as [|c s IH]; cbn; [done|].
  destruct (ascii_dec c c); [done|congruence].
Qed.

Lemma contains_refl (s : string) : PyStr.contains s s = true.
Proof. destruct s; cbn [PyStr.contains]; by rewrite prefix_refl. Qed.

(** X14. An empty suggestion name matches every key: the match list then
    holds an entity for every name stored in the table, whatever the
    description, and is empty only when the table is. *)
Theorem empty_name_matches_every_entry
    (self : Mapper) (suggestion_description : string) :
  let result := check_for_duplicates self "" suggestion_description in
  (∀ key f, (key, f) ∈ duplicate_detection_db self →
     ∃ g, g ∈ result ∧ name g = name f) ∧
  (result = [] ↔ duplicate_detection_db self = []).
Proof.
  cbv zeta. unfold check_for_duplicates. cbn [PyStr.lower PyStr.replace_char].
  assert (∀ key f, (key, f) ∈ duplicate_detection_db self →
            ∃ g, g ∈ unique_by_name ∅
                       (scan_database "" (PyStr.lower suggestion_description)
                          (duplicate_detection_db self)) ∧ name g = name f) as Hall.
  { intros key f Hin.
    apply unique_by_name_complete; [|apply not_elem_of_empty].
    apply scan_database_elem. exists key. split; [done|].
    unfold entry_matches. by rewrite contains_empty, orb_true_r. }
  split; [exact Hall|]. split.
  - intros Hnil. destruct (duplicate_detection_db self) as [|[k f] db]; [done|].
    destruct (Hall k f) as (g & Hg & _); [apply list_elem_of_here|].
    rewrite Hnil in Hg. by apply elem_of_nil in Hg.
  - by intros ->.
Qed.

Lemma replace_lower_ascii (c : ascii) :
  (if Ascii.eqb (PyStr.lower_ascii c) "_" then " "%char else PyStr.lower_ascii c)
  = PyStr.lower_ascii (if Ascii.eqb c "_" then " "%char else c).
Proof. destruct c as [[] [] [] [] [] [] [] []]; reflexivity. Qed.

Lemma replace_lower_comm (s : string) :
  PyStr.replace_char "_" " " (PyStr.lower s)
  = PyStr.lower (PyStr.replace_char "_" " " s).
Proof.
  induction s as [|c s IH]; cbn [PyStr.lower PyStr.replace_char]; [done|].
  by rewrite replace_lower_ascii, IH.
Qed.

Lemma first_generated_exists key (fs : list ExistingFunction) :
  (∃ f, f ∈ fs ∧ key ∈ lookup_keys f) →
  ∃ g, first_generated_by key g fs.
Proof.
  induction fs as [|h fs IH]; intros (f & Hf & Hk); [by apply elem_of_nil in Hf|].
  destruct (decide (key ∈ lookup_keys h)) as [Hh|Hh].
  - exists h. apply first_generated_cons. by left.
  - apply elem_of_cons in Hf as [->|Hf]; [done|].
    destruct IH as (g & Hg); [by exists f|].
    exists g. apply first_generated_cons. by right.
Qed.

(** X15. Build, then look up: proposing the name of any catalogued
    entity (a non-empty name) is always flagged, whatever description
    comes with it, and every entity flagged is one of the catalogue. *)
Theorem catalogued_name_is_flagged
    (self : Mapper) (f : ExistingFunction) (suggestion_description : string)
    (Hf : f ∈ existing_functions self)
    (Hname : name f ≠ "") :
  let mapper := (_build_duplicate_detection_database self).1 in
  let result := check_for_duplicates mapper (name f) suggestion_description in
  result ≠ [] ∧ ∀ g, g ∈ result → g ∈ existing_functions self.
Proof.
  cbv zeta. unfold check_for_duplicates, _build_duplicate_detection_database.
  cbn [fst duplicate_detection_db].
  set (db := foldl add_function [] (existing_functions self)).
  set (key := PyStr.replace_char "_" " " (PyStr.lower (name f))).
  split.
  - assert (key ∈ lookup_keys f) as Hkey.
    { unfold key, lookup_keys. rewrite replace_lower_comm.
      do 3 apply list_elem_of_further. apply list_elem_of_here. }
    assert (key ≠ "") as Hne.
    { unfold key. destruct (name f); [done|discriminate]. }
    destruct (first_generated_exists key (existing_functions self)) as (g & Hg);
      [by exists f|].
    assert (db_get db key = Some g) as Hget.
    { apply build_get. right. done. }
    apply db_get_Some_in in Hget.
    destruct (unique_by_name_complete
                (scan_database key (PyStr.lower suggestion_description) db) ∅ g)
      as (g' & Hg' & _); [|apply not_elem_of_empty|].
    + apply scan_database_elem. exists key. split; [done|].
      unfold entry_matches. by rewrite contains_refl.
    + intros Hnil. rewrite Hnil in Hg'. by apply elem_of_nil in Hg'.
  - intros g Hg%unique_by_name_subset.
    apply scan_database_elem in Hg as (k & Hin & _).
    destruct (build_ok (existing_functions self) (existing_functions self)
                (fun f Hf => Hf) []) as [[_ Hent] _].
    { split; [constructor|]. by intros ? ? ?%elem_of_nil. }
    by destruct (Hent k g Hin) as (_ & ? & _).
Qed.

Lemma catalogued_name_is_flagged_witness :
  let mapper := (_build_duplicate_detection_database sample_mapper).1 in
  let result := check_for_duplicates mapper (name shadowed_fn) "anything" in
  result ≠ [] ∧ ∀ g, g ∈ result → g ∈ existing_functions sample_mapper.
Proof.
  apply (catalogued_name_is_flagged sample_mapper shadowed_fn "anything").
  - apply list_elem_of_further, list_elem_of_here.
  - discriminate.
Defined.

End MapperTable.

(** ** The mapping run *)

Section MappingRunProps.

Import CapabilityMapper MappingRun.

Lemma categorize_tags (fs : list ExistingFunction) :
  categorize fs = foldl tag_step [] (tags fs).
Proof.
  unfold categorize, tags. generalize (@nil (string * list string)) as cats.
  induction fs as [|f fs IH]; intros cats; cbn [foldl flat_map]; [done|].
  rewrite foldl_app, IH. f_equal.
  generalize cats. clear.
  induction (CapabilityMapper.categories f) as [|c cs IH]; intros cats;
    cbn [foldl map]; [done|]. by rewrite IH.
Qed.

Lemma category_get_append cats c n c' :
  category_get (category_append cats c n) c'
  = if String.eqb c c'
    then Some (default [] (category_get cats c) ++ [n])%list
    else category_get cats c'.
Proof.
  induction cats as [|[k names] cats IH]; cbn [category_append category_get].
  - destruct (String.eqb c c'); done.
  - destruct (String.eqb_spec k c) as [->|Hkc]; cbn [category_get].
    + destruct (String.eqb_spec c c') as [->|Hcc]; [done|done].
    + destruct (String.eqb_spec k c') as [->|Hkc'].
      * destruct (String.eqb_spec c c') as [->|Hcc]; [done|done].
      * exact IH.
Qed.

Lemma category_keys_append cats c n :
  map fst (category_append cats c n)
  = if bool_decide (c ∈ map fst cats) then map fst cats
    else (map fst cats ++ [c])%list.
Proof.
  induction cats as [|[k names] cats IH]; cbn [category_append map fst].
  - rewrite bool_decide_eq_false_2; [done|apply not_elem_of_nil].
  - destruct (String.eqb_spec k c) as [->|Hkc]; cbn [map fst].
    + rewrite bool_decide_eq_true_2; [done|apply list_elem_of_here].
    + rewrite IH. case_bool_decide as Hin.
      * rewrite bool_decide_eq_true_2; [done|by apply list_elem_of_further].
      * rewrite bool_decide_eq_false_2; [done|].
        intros [?|?]%elem_of_cons; congruence.
Qed.

Lemma foldl_tag_step_get (T : list (string * string)) c :
  ∀ cats,
    category_get (foldl tag_step cats T) c
    = match map fst (filter (fun t => t.2 = c) T) with
      | [] => category_get cats c
      | ns => Some (default [] (category_get cats c) ++ ns)%list
      end.
Proof.
  induction T as [|[n c'] T IH]; intros cats; cbn [foldl]; [done|].
  rewrite IH. unfold tag_step. cbn [fst snd].
  rewrite category_get_append, filter_cons. cbn [snd].
  destruct (String.eqb_spec c' c) as [->|Hne].
  - rewrite decide_True by done. cbn [map fst default].
    destruct (map fst (filter _ T)); [done|]. unfold id. by rewrite <- app_assoc.
  - rewrite decide_False by done. done.
Qed.

Lemma foldl_tag_step_keys (T : list (string * string)) :
  ∀ cats, NoDup (map fst cats) → NoDup (map fst (foldl tag_step cats T)).
Proof.
  induction T as [|[n c] T IH]; intros cats Hnd; cbn [foldl]; [done|].
  apply IH. unfold tag_step. cbn [fst snd]. rewrite category_keys_append.
  case_bool_decide as Hin; [done|].
  apply NoDup_app. split; [done|]. split; [|apply NoDup_singleton].
  by intros x Hx ->%list_elem_of_singleton.
Qed.

(** X16. [_categorize_functionality] lists under each category the names
    of the functions carrying it, in catalogue order and once per tag;
    a category nobody carries is no key, and no key occurs twice. *)
Theorem categories_list_tagged_names (self : State) (category : string) :
  let out := _categorize_functionality self in
  let fs := existing_functions (mapper self) in
  functionality_categories out.1 = out.2 ∧
  mapper out.1 = mapper self ∧
  NoDup (map fst out.2) ∧
  category_get out.2 category
  = match map fst (filter (fun t => t.2 = category) (tags fs)) with
    | [] => None
    | names => Some names
    end.
Proof.
  cbv zeta. unfold _categorize_functionality. cbn [fst snd functionality_categories
    mapper]. split; [done|]. split; [done|].
  rewrite categorize_tags. split.
  - apply foldl_tag_step_keys. constructor.
  - rewrite foldl_tag_step_get. cbn [category_get default].
    by destruct (map fst _).
Qed.

Lemma foldl_add_shift (l : list nat) (a : nat) :
  foldl Nat.add a l = (a + foldl Nat.add 0 l)%nat.
Proof.
  revert a. induction l as [|x l IH]; intros a; cbn [foldl]; [lia|].
  rewrite (IH (a + x)%nat), (IH (0 + x)%nat). lia.
Qed.

Lemma sum_values_cons c n (d : list (string * nat)) :
  sum_values ((c, n) :: d) = (n + sum_values d)%nat.
Proof. unfold sum_values. cbn [map snd foldl]. by rewrite foldl_add_shift. Qed.

Lemma sum_values_bump (d : list (string * nat)) c :
  sum_values (bump d c) = S (sum_values d).
Proof.
  induction d as [|[k n] d IH]; cbn [bump]; [done|].
  destruct (String.eqb k c); rewrite !sum_values_cons; [lia|]. rewrite IH. lia.
Qed.

Lemma actual_counts_sum (fs : list ExistingFunction) :
  sum_values (actual_counts fs) = counted_tags fs.
Proof.
  unfold actual_counts, counted_tags, tags.
  assert (∀ counts,
            sum_values
              (foldl (fun counts function =>
                        foldl (fun counts category =>
                                 if expected category then bump counts category
                                 else counts)
                              counts (CapabilityMapper.categories function))
                     counts fs)
            = (sum_values counts
               + length (filter (fun t : string * string => Is_true (expected t.2))
                           (flat_map (fun f => map (fun c => (name f, c))
                                                 (CapabilityMapper.categories f)) fs)))%nat)
    as H; [|by rewrite H].
  induction fs as [|f fs IH]; intros counts; cbn [foldl flat_map]; [cbn; lia|].
  rewrite IH, filter_app, length_app.
  assert (∀ counts,
            sum_values (foldl (fun counts category =>
                                 if expected category then bump counts category
                                 else counts)
                              counts (CapabilityMapper.categories f))
            = (sum_values counts
               + length (filter (fun t : string * string => Is_true (expected t.2))
                           (map (fun c => (name f, c))
                              (CapabilityMapper.categories f))))%nat) as Hin; [|rewrite Hin; lia].
  clear. induction (CapabilityMapper.categories f) as [|c cs IH]; intros counts;
    cbn [foldl map]; [cbn; lia|].
  rewrite IH, filter_cons. cbn [snd].
  destruct (expected c); [rewrite sum_values_bump|]; cbn [length].
  - rewrite decide_True by done. cbn [length]. lia.
  - rewrite decide_False by (by intros []). lia.
Qed.

Lemma counted_tags_app (fs gs : list ExistingFunction) :
  counted_tags (fs ++ gs) = (counted_tags fs + counted_tags gs)%nat.
Proof.
  unfold counted_tags, tags. by rewrite flat_map_app, filter_app, length_app.
Qed.

Lemma mapping_completeness_eq (fs : list ExistingFunction) :
  mapping_completeness fs = Qmin 1 (ratio (counted_tags fs) 180).
Proof.
  unfold mapping_completeness. rewrite actual_counts_sum.
  change (sum_values expected_counts) with 180%nat. done.
Qed.

Lemma ratio_180 (k : nat) : (ratio k 180 == Z.of_nat k # 180)%Q.
Proof. rewrite ratio_make by lia. reflexivity. Qed.

(** X17. The mapping completeness is min(1, k/180), for k the number of
    category tags among revitron, pyrevit and revit_api over the whole
    catalogue: it lies in [0,1] and reaches 1.0 exactly from 180 such
    tags on, however they are spread over the three categories. *)
Theorem mapping_completeness_counts_tags (self : State) :
  let c := _calculate_mapping_completeness self in
  let k := counted_tags (existing_functions (mapper self)) in
  c = Qmin 1 (ratio k 180) ∧
  (0 <= c <= 1)%Q ∧
  ((c == 1)%Q ↔ (180 ≤ k)%nat).
Proof.
  cbv zeta. unfold _calculate_mapping_completeness, mapping_completeness.
  rewrite actual_counts_sum.
  change (sum_values expected_counts) with 180%nat. cbn [Nat.ltb Nat.leb].
  set (k := counted_tags _).
  assert (ratio k 180 == Z.of_nat k # 180)%Q as Hr.
  { rewrite ratio_make by lia. reflexivity. }
  split; [done|].
  assert (0 <= ratio k 180)%Q as H0.
  { rewrite Hr. unfold Qle. cbn. lia. }
  split; [split; [apply Q.min_glb; [by vm_compute|done]|apply Q.le_min_l]|].
  destruct (Q.min_spec 1 (ratio k 180)) as [[Hc Hm]|[Hc Hm]]; rewrite Hm.
  - split; [intros _|done]. rewrite Hr in Hc. unfold Qlt in Hc. cbn in Hc. lia.
  - rewrite Hr in Hc |- *. unfold Qle in Hc. unfold Qeq. cbn in Hc |- *. lia.
Qed.

Section MapProps.

Variable findall : string → string → list Match.

Lemma counted_tags_extracted content source_type source_name :
  expected source_type = true →
  counted_tags (_extract_functions_from_content findall content source_type source_name)
  = length (_extract_functions_from_content findall content source_type source_name).
Proof.
  intros He. unfold _extract_functions_from_content.
  induction (signature_patterns source_type) as [|p ps IH]; cbn [flat_map]; [done|].
  rewrite counted_tags_app, length_app, IH. f_equal.
  induction (findall p content) as [|m ms IHm]; [done|].
  cbn [map length]. rewrite <- IHm.
  change (function_of_match source_type source_name m :: map _ ms)
    with ([function_of_match source_type source_name m]
          ++ map (function_of_match source_type source_name) ms)%list.
  rewrite counted_tags_app. f_equal.
  unfold counted_tags, tags, function_of_match.
  destruct m as [s|first [|second others]]; cbn; by rewrite He.
Qed.

Lemma counted_tags_extracted_if (self : State) source_type source_name :
  expected source_type = true →
  counted_tags (extracted findall self source_type source_name)
  = length (extracted findall self source_type source_name).
Proof.
  intros He. unfold extracted. destruct (PyStr.truthy _); [|done].
  by apply counted_tags_extracted.
Qed.

Lemma below_threshold (k : nat) :
  Qlt_bool (Qmin 1 (ratio k 180)) (9 # 10) = bool_decide (k < 162)%nat.
Proof.
  rewrite Qlt_bool_min_one by (by vm_compute).
  apply Qlt_bool_ext. rewrite ratio_180. unfold Qlt. cbn [Qnum Qden]. lia.
Qed.

Lemma mapping_run_shape (self : State) :
  let out := map_existing_functionality findall self in
  let rev := extracted findall self "revitron" "Revitron Documentation" in
  let py := extracted findall self "pyrevit" "PyRevit Documentation" in
  let before := existing_functions (mapper self) in
  let k := (counted_tags before + length rev + length py)%nat in
  existing_functions (mapper out.1)
    = (before ++ (rev ++ known_revitron_functions)
         ++ (py ++ known_pyrevit_functions) ++ known_revit_api_functions)%list ∧
  ((k < 162)%nat →
   out.2 = inl (MappingError_failed
                  (MappingError_threshold (Qmin 1 (ratio k 180))))) ∧
  ((162 ≤ k)%nat →
   ∃ m, out.2 = inr m ∧
        total_functions_mapped m
          = (length before + length rev + length py + 17)%nat ∧
        fm_mapping_completeness m = Qmin 1 (ratio k 180) ∧
        duplicate_detection_database m = duplicate_detection_db (mapper out.1)) ∧
  (before = [] → content_extracted (research_data self) = None →
   ∃ c, out.2 = inl (MappingError_failed (MappingError_threshold c)) ∧
        (c == 0)%Q).
Proof.
  cbv zeta. unfold map_existing_functionality.
  cbn [_map_revitron_functions _map_pyrevit_functions _map_revit_api_functions
       _categorize_functionality _build_duplicate_detection_database
       extend_functions research_data mapper existing_functions
       functionality_categories duplicate_detection_db].
  fold (extracted findall self "revitron" "Revitron Documentation").
  fold (extracted findall self "pyrevit" "PyRevit Documentation").
  set (rev := extracted findall self "revitron" "Revitron Documentation").
  set (py := extracted findall self "pyrevit" "PyRevit Documentation").
  set (before := existing_functions (mapper self)).
  set (all := (((before ++ rev ++ known_revitron_functions)
                  ++ py ++ known_pyrevit_functions)
                 ++ known_revit_api_functions)%list).
  unfold _calculate_mapping_completeness. cbn [mapper existing_functions].
  rewrite mapping_completeness_eq.
  assert (counted_tags all = (counted_tags before + length rev + length py)%nat)
    as Hk.
  { unfold all. rewrite !counted_tags_app.
    unfold rev, py. rewrite !counted_tags_extracted_if by done.
    change (counted_tags known_revitron_functions) with 0%nat.
    change (counted_tags known_pyrevit_functions) with 0%nat.
    change (counted_tags known_revit_api_functions) with 0%nat. lia. }
  rewrite Hk, below_threshold.
  set (k := (counted_tags before + length rev + length py)%nat).
  assert (all = (before ++ (rev ++ known_revitron_functions)
                   ++ (py ++ known_pyrevit_functions)
                   ++ known_revit_api_functions)%list) as Hall.
  { unfold all. by rewrite <- !app_assoc. }
  split; [by case_bool_decide|]. split; [|split].
  - intros Hlt. by rewrite bool_decide_eq_true_2.
  - intros Hge. rewrite bool_decide_eq_false_2 by lia.
    eexists. split; [reflexivity|].
    cbn [total_functions_mapped fm_mapping_completeness
         duplicate_detection_database snd fst mapper duplicate_detection_db
         existing_functions].
    split; [|done]. unfold all. rewrite !length_app.
    change (length known_revitron_functions) with 8%nat.
    change (length known_pyrevit_functions) with 5%nat.
    change (length known_revit_api_functions) with 4%nat. lia.
  - intros Hb Hc.
    assert (k = 0%nat) as ->.
    { unfold k, rev, py, extracted, content_of. rewrite Hb, Hc. reflexivity. }
    rewrite bool_decide_eq_true_2 by lia. eexists. split; [reflexivity|].
    by vm_compute.
Qed.

(** X18. A mapping run appends to the catalogue what the regular
    expressions extract from the two documentation texts, and the 17
    built-in functions; only extracted functions count towards
    completeness.  The run returns a mapping exactly when the functions
    counted before plus those extracted number at least 162; otherwise,
    and so always on a fresh mapper without documentation text, it
    raises MappingError. *)
Theorem mapping_run_needs_extraction (self : State) :
  let out := map_existing_functionality findall self in
  let rev := extracted findall self "revitron" "Revitron Documentation" in
  let py := extracted findall self "pyrevit" "PyRevit Documentation" in
  let before := existing_functions (mapper self) in
  let k := (counted_tags before + length rev + length py)%nat in
  existing_functions (mapper out.1)
    = (before ++ (rev ++ known_revitron_functions)
         ++ (py ++ known_pyrevit_functions) ++ known_revit_api_functions)%list ∧
  ((k < 162)%nat →
   out.2 = inl (MappingError_failed
                  (MappingError_threshold (Qmin 1 (ratio k 180))))) ∧
  ((162 ≤ k)%nat →
   ∃ m, out.2 = inr m ∧
        total_functions_mapped m
          = (length before + length rev + length py + 17)%nat ∧
        fm_mapping_completeness m = Qmin 1 (ratio k 180) ∧
        duplicate_detection_database m = duplicate_detection_db (mapper out.1)) ∧
  (before = [] → content_extracted (research_data self) = None →
   ∃ c, out.2 = inl (MappingError_failed (MappingError_threshold c)) ∧
        (c == 0)%Q).
Proof. exact (mapping_run_shape self). Qed.

End MapProps.

End MappingRunProps.

(** ** The controller phases *)


Lemma mapping_run_outcome
    (findall : string → string → list MappingRun.Match) (self : MappingRun.State) :
  let out := MappingRun.map_existing_functionality findall self in
  let k := (MappingRun.counted_tags
              (CapabilityMapper.existing_functions (MappingRun.mapper self))
            + length (MappingRun.extracted findall self "revitron"
                        "Revitron Documentation")
            + length (MappingRun.extracted findall self "pyrevit"
                        "PyRevit Documentation"))%nat in
  ((k < 162)%nat → ∃ e, out.2 = inl e) ∧
  ((162 ≤ k)%nat → ∃ m, out.2 = inr m).
Proof.
  cbv zeta. destruct (mapping_run_shape findall self) as (_ & Hlt & Hge & _).
  cbv zeta in Hlt, Hge. split; intros Hk.
  - rewrite (Hlt Hk). by eexists.
  - destruct (Hge Hk) as (m & -> & _). by eexists.
Qed.


(** X20. The capability-mapping phase of the controller never returns:
    below 162 extracted functions the mapper raises MappingError, and
    from 162 on the returned mapping is indexed like a dict, which
    raises TypeError. *)
Theorem mapping_phase_never_returns
    (findall : string → string → list MappingRun.Match)
    (research_results : MappingRun.ResearchData) :
  let out := Controller._execute_capability_mapping findall research_results in
  let k := (length (MappingRun.extracted findall
                      (Controller.new_mapper research_results)
                      "revitron" "Revitron Documentation")
            + length (MappingRun.extracted findall
                        (Controller.new_mapper research_results)
                        "pyrevit" "PyRevit Documentation"))%nat in
  (∃ r, out.2 = inl r) ∧
  ((k < 162)%nat → ∃ e, out.2 = inl (Controller.RaisedMappingError e)) ∧
  ((162 ≤ k)%nat →
   out.2 = inl (Controller.TypeError_not_subscriptable "FunctionalityMapping")).
Proof.
  cbv zeta. unfold Controller._execute_capability_mapping.
  destruct (mapping_run_outcome findall (Controller.new_mapper research_results))
    as (Hlt & Hge).
  cbv zeta in Hlt, Hge. cbn [MappingRun.mapper Controller.new_mapper
    CapabilityMapper.existing_functions] in Hlt, Hge.
  change (MappingRun.counted_tags []) with 0%nat in Hlt, Hge.
  rewrite !Nat.add_0_l in Hlt, Hge.
  destruct (MappingRun.map_existing_functionality findall _) as [st [e|m]];
    cbn [snd] in *.
  - split; [by eexists|]. split; [by eexists|].
    intros Hk. destruct (Hge Hk) as (m & Hm). done.
  - split; [by eexists|]. split; [|done].
    intros Hk. destruct (Hlt Hk) as (e & He). discriminate He.
Qed.
